(** * A shallow embedding of the news viewer and the transcription handlers

    The development follows the TypeScript sources:
    - [components/NewsViewer.tsx]: the article query ([filteredNews]) and the
      highlighter ([renderHighlightedText]);
    - [api/transcribe-file.ts] and [api/transcribe-youtube.ts]: the two HTTP
      handlers;
    - the two versions of the [VideoTranscriber] component: the one that posts
      to the backend and the one that calls the AI service from the browser.

    Strings are sequences of code units, written as Rocq strings.  The
    operations below act on one code unit at a time and are exact on ASCII
    text; literals of the source outside ASCII are kept as their UTF-8 bytes,
    on which [includes] stays exact and [toLowerCase] is exact for scripts
    without case.  The article query, whose text is free, takes the host's
    [toLowerCase] as a parameter instead; the handlers and the components
    lower-case messages only to look for ASCII markers in them. *)

From Stdlib Require Import List String Ascii ZArith NArith Bool Lia Arith.
From Stdlib Require Import Permutation Sorted DecimalString.
Import ListNotations.

Local Open Scope string_scope.
Local Open Scope Z_scope.

(* ================================================================== *)
(** ** The JavaScript string primitives the sources use *)
(* ================================================================== *)

Module JS.

Definition code (c : ascii) : N := N_of_ascii c.

(** [String.prototype.toLowerCase], one code unit at a time: A..Z move
    to a..z and everything else stays. *)
Definition lowerChar (c : ascii) : ascii :=
  if ((0x41 <=? code c) && (code c <=? 0x5A))%N
  then ascii_of_N (code c + 0x20) else c.

Fixpoint toLowerCase (s : string) : string :=
  match s with
  | EmptyString => EmptyString
  | String c s' => String (lowerChar c) (toLowerCase s')
  end.

(** The upper-case counterpart, which the regular-expression matcher uses to
    canonicalize code units under the [i] flag. *)
Definition upperChar (c : ascii) : ascii :=
  if ((0x61 <=? code c) && (code c <=? 0x7A))%N
  then ascii_of_N (code c - 0x20) else c.

(** [s.startsWith(p)] *)
Fixpoint startsWith (s p : string) {struct p} : bool :=
  match p, s with
  | EmptyString, _ => true
  | String _ _, EmptyString => false
  | String b p', String a s' => Ascii.eqb a b && startsWith s' p'
  end.

(** [s.includes(sub)]: [sub] occurs in [s] at some position. *)
Fixpoint includes (s sub : string) : bool :=
  startsWith s sub ||
  match s with
  | EmptyString => false
  | String _ s' => includes s' sub
  end.

(** White space in the sense of [trim] and [parseInt]: the WhiteSpace and
    LineTerminator code points, in their UTF-8 form of one, two or three
    code units. *)
Definition isWS1 (a : ascii) : bool :=
  let n := code a in
  ((0x09 <=? n) && (n <=? 0x0D) || (n =? 0x20))%N.

Definition isWS2 (a b : ascii) : bool :=
  ((code a =? 0xC2) && (code b =? 0xA0))%N.

Definition isWS3 (a b c : ascii) : bool :=
  let x := code a in let y := code b in let z := code c in
  ((x =? 0xE1) && (y =? 0x9A) && (z =? 0x80)                        (* U+1680 *)
   || (x =? 0xE2) && (y =? 0x80) && (0x80 <=? z) && (z <=? 0x8A)    (* U+2000..200A *)
   || (x =? 0xE2) && (y =? 0x80) && ((z =? 0xA8) || (z =? 0xA9) || (z =? 0xAF))
   || (x =? 0xE2) && (y =? 0x81) && (z =? 0x9F)                     (* U+205F *)
   || (x =? 0xE3) && (y =? 0x80) && (z =? 0x80)                     (* U+3000 *)
   || (x =? 0xEF) && (y =? 0xBB) && (z =? 0xBF))%N.                 (* U+FEFF *)

Fixpoint trimStart (s : string) : string :=
  match s with
  | EmptyString => s
  | String a s1 =>
      if isWS1 a then trimStart s1 else
      match s1 with
      | EmptyString => s
      | String b s2 =>
          if isWS2 a b then trimStart s2 else
          match s2 with
          | EmptyString => s
          | String c s3 => if isWS3 a b c then trimStart s3 else s
          end
      end
  end.

(** A suffix is dropped by [trimEnd] exactly when it is white space only. *)
Fixpoint trimEnd (s : string) : string :=
  match s with
  | EmptyString => EmptyString
  | String a s' =>
      if String.eqb (trimStart s) "" then "" else String a (trimEnd s')
  end.

Definition trim (s : string) : string := trimEnd (trimStart s).

(** [sub] occurs in [s]: what [includes] decides. *)
Definition occurs (sub s : string) : Prop :=
  exists pre post, s = pre ++ sub ++ post.

(** Text made of ASCII code units only. *)
Fixpoint isAscii (s : string) : bool :=
  match s with
  | EmptyString => true
  | String c s' => (code c <? 0x80)%N && isAscii s'
  end.

(** Truthiness of a string: only the empty string is falsy. *)
Definition truthy (s : string) : bool := negb (String.eqb s "").

(** [parseInt(s, 10)]: leading white space, an optional sign, then the
    longest run of decimal digits; [None] is NaN (no digit at all). *)
Definition digit (a : ascii) : option Z :=
  let n := code a in
  if ((0x30 <=? n) && (n <=? 0x39))%N then Some (Z.of_N n - 0x30) else None.

Fixpoint digits (acc : Z) (s : string) : Z :=
  match s with
  | EmptyString => acc
  | String a s' =>
      match digit a with
      | Some d => digits (10 * acc + d) s'
      | None => acc
      end
  end.

Definition unsigned (s : string) : option Z :=
  match s with
  | EmptyString => None
  | String a _ =>
      match digit a with
      | Some _ => Some (digits 0 s)
      | None => None
      end
  end.

Definition parseInt (s : string) : option Z :=
  match trimStart s with
  | String "-" s' => option_map Z.opp (unsigned s')
  | String "+" s' => unsigned s'
  | s' => unsigned s'
  end.

(** [x > y] on numbers: false as soon as one side is NaN. *)
Definition gt (x : option Z) (y : Z) : bool :=
  match x with
  | Some v => y <? v
  | None => false
  end.

(** Number to string, for the integers the sources interpolate. *)
Definition toString (z : Z) : string :=
  NilZero.string_of_int (Z.to_int z).

(** The double quote, for literals that contain one. *)
Definition dquote : string := String (ascii_of_N 0x22) "".

End JS.

(* ================================================================== *)
(** ** components/NewsViewer.tsx: the article query *)
(* ================================================================== *)

Module NewsViewer.
Import JS.

(** [NewsArticle] of types.ts. *)
Record NewsArticle : Type := mkArticle {
  id : Z;
  channelId : string;
  title : string;
  content : string;
  date : string;
  imageUrl : string
}.

(** *** Arrays are objects: a small heap

    [MOCK_NEWS_DATA] is one array object.  [filter] allocates a new array,
    while [sort] reorders the array it is called on and returns that same
    array, so a variable bound to [MOCK_NEWS_DATA] shares every update. *)
Definition loc := nat.
Definition heap := list (list NewsArticle).
Definition St (A : Type) := heap -> A * heap.

Definition ret {A} (a : A) : St A := fun h => (a, h).
Definition bind {A B} (m : St A) (f : A -> St B) : St B :=
  fun h => let (a, h') := m h in f a h'.

Notation "x <- m ;; k" := (bind m (fun x => k))
  (at level 61, m at next level, right associativity).

Definition deref (p : loc) : St (list NewsArticle) :=
  fun h => (nth p h [], h).

Definition alloc (l : list NewsArticle) : St loc :=
  fun h => (List.length h, (h ++ [l])%list).

Fixpoint update (p : loc) (l : list NewsArticle) (h : heap) : heap :=
  match h, p with
  | [], _ => []
  | _ :: h', O => l :: h'
  | x :: h', S p' => x :: update p' l h'
  end.

Definition assign (p : loc) (l : list NewsArticle) : St unit :=
  fun h => (tt, update p l h).

(** The location of the module constant [MOCK_NEWS_DATA]. *)
Definition MOCK_NEWS_DATA : loc := 0%nat.

(** [Array.prototype.filter]: a fresh array. *)
Definition Array_filter (p : loc) (f : NewsArticle -> bool) : St loc :=
  l <- deref p ;; alloc (filter f l).

(** [Array.prototype.sort(comparefn)].  A result of [comparefn] that is NaN
    counts as +0.  The sort is stable; for a consistent comparator every
    conforming implementation returns the same array, the one this
    insertion sort builds. *)
Section Sort.
Variable comparefn : NewsArticle -> NewsArticle -> option Z.

Definition SortCompare (x y : NewsArticle) : Z :=
  match comparefn x y with
  | Some v => v
  | None => 0
  end.

Fixpoint insert (x : NewsArticle) (l : list NewsArticle) : list NewsArticle :=
  match l with
  | [] => [x]
  | y :: l' => if SortCompare x y <=? 0 then x :: l else y :: insert x l'
  end.

Definition sorted (l : list NewsArticle) : list NewsArticle :=
  fold_right insert [] l.

Definition Array_sort (p : loc) : St loc :=
  l <- deref p ;; _ <- assign p (sorted l) ;; ret p.
End Sort.

Section Query.
(** [String.prototype.toLowerCase] of the host, on the text of the articles
    and of the search box: the query is stated for whatever function the
    host provides, so for text in any script.  [JS.toLowerCase] is the
    instance for ASCII text. *)
Variable toLowerCase : string -> string.

(** [new Date(s).getTime()]: the time value in milliseconds, [None] for
    NaN (an invalid date).  What strings parse is left to the host. *)
Variable Date_getTime : string -> option Z.

(** [(a, b) => new Date(b.date).getTime() - new Date(a.date).getTime()] *)
Definition byDateDesc (a b : NewsArticle) : option Z :=
  match Date_getTime (date b), Date_getTime (date a) with
  | Some tb, Some ta => Some (tb - ta)
  | _, _ => None
  end.

Definition channelTest (activeChannel : string) (article : NewsArticle) : bool :=
  String.eqb (channelId article) activeChannel.

Definition textTest (lowercasedQuery : string) (article : NewsArticle) : bool :=
  includes (toLowerCase (title article)) lowercasedQuery
  || includes (toLowerCase (content article)) lowercasedQuery.

(** The body of the [useMemo] callback. *)
Definition filteredNews (activeChannel searchQuery : string) : St loc :=
  news <- (if String.eqb activeChannel "all"
           then ret MOCK_NEWS_DATA
           else Array_filter MOCK_NEWS_DATA (channelTest activeChannel)) ;;
  news <- (if negb (String.eqb (trim searchQuery) "")
           then
             let lowercasedQuery := toLowerCase searchQuery in
             Array_filter news (textTest lowercasedQuery)
           else ret news) ;;
  Array_sort byDateDesc news.

(** One evaluation of the query on a store: the array it returns and the
    contents of [MOCK_NEWS_DATA] afterwards. *)
Definition query (store : list NewsArticle) (c q : string)
  : list NewsArticle * list NewsArticle :=
  let (p, h) := filteredNews c q [store] in
  (nth p h [], nth MOCK_NEWS_DATA h []).

(** The articles a query keeps: the channel test unless the filter is
    ["all"], and the text test unless the query trims to nothing. *)
Definition selects (c q : string) (article : NewsArticle) : bool :=
  (String.eqb c "all" || channelTest c article)
  && (String.eqb (trim q) "" || textTest (toLowerCase q) article).

(** Vocabulary for the ordering of a result: an article's date is valid,
    its time value is [t], and [a] is not older than [b]. *)
Definition validDate (a : NewsArticle) : Prop :=
  Date_getTime (date a) <> None.

Definition timeIs (t : Z) (a : NewsArticle) : bool :=
  match Date_getTime (date a) with
  | Some u => u =? t
  | None => false
  end.

Definition notOlder (a b : NewsArticle) : Prop :=
  exists ta tb,
    Date_getTime (date a) = Some ta /\ Date_getTime (date b) = Some tb /\
    tb <= ta.

Definition result (store : list NewsArticle) (c q : string) :=
  fst (query store c q).

Definition storeAfter (store : list NewsArticle) (c q : string) :=
  snd (query store c q).

(** The store after a series of queries, each given by its channel filter
    and its search string. *)
Fixpoint storeAfterAll (store : list NewsArticle)
    (queries : list (string * string)) : list NewsArticle :=
  match queries with
  | [] => store
  | (c, q) :: queries' => storeAfterAll (storeAfter store c q) queries'
  end.
End Query.

(** *** A date parser for the examples

    Date-only strings [YYYY-MM-DD] of the Date Time String Format, read as
    UTC midnight; this instance reports any other string as invalid. *)
Definition daysFromCivil (y m d : Z) : Z :=
  let y' := if m <=? 2 then y - 1 else y in
  let era := y' / 400 in
  let yoe := y' - era * 400 in
  let doy := (153 * (if 2 <? m then m - 3 else m + 9) + 2) / 5 + d - 1 in
  let doe := yoe * 365 + yoe / 4 - yoe / 100 + doy in
  era * 146097 + doe - 719468.

Definition isLeap (y : Z) : bool :=
  ((y mod 4 =? 0) && negb (y mod 100 =? 0)) || (y mod 400 =? 0).

Definition daysInMonth (y m : Z) : Z :=
  if m =? 2 then (if isLeap y then 29 else 28)
  else if (m =? 4) || (m =? 6) || (m =? 9) || (m =? 11) then 30 else 31.

Definition num2 (a b : ascii) : option Z :=
  match digit a, digit b with
  | Some x, Some y => Some (10 * x + y)
  | _, _ => None
  end.

Definition isoDate (s : string) : option Z :=
  match s with
  | String y1 (String y2 (String y3 (String y4 (String "-"
      (String m1 (String m2 (String "-" (String d1 (String d2 ""))))))))) =>
      match num2 y1 y2, num2 y3 y4, num2 m1 m2, num2 d1 d2 with
      | Some yh, Some yl, Some m, Some d =>
          let y := 100 * yh + yl in
          if (1 <=? m) && (m <=? 12) && (1 <=? d) && (d <=? daysInMonth y m)
          then Some (daysFromCivil y m d * 86400000)
          else None
      | _, _, _, _ => None
      end
  | _ => None
  end.

(** *** A small store for the examples *)
Definition sampleStore : list NewsArticle :=
  [ mkArticle 1 "cna" "Election results" "Votes were counted."
      "2024-01-05" "https://example.org/1.png";
    mkArticle 2 "pts" "Weather" "Rain after the ELECTION day."
      "2024-03-01" "https://example.org/2.png";
    mkArticle 3 "cna" "Sports" "Final score."
      "2024-03-01" "https://example.org/3.png" ].

End NewsViewer.

(* ================================================================== *)
(** ** components/NewsViewer.tsx: the highlighter *)
(* ================================================================== *)

Module Highlight.
Import JS.

(** *** Regular expressions

    [renderHighlightedText] builds [new RegExp(`(${query})`, 'gi')]: the
    query is pattern source.  The model covers the patterns made of
    pattern characters, capturing groups and alternation, with the
    backtracking semantics of the language specification; a pattern that
    uses any other syntax character (anchors, escapes, classes,
    quantifiers, the dot, braces) is reported as [Unsupported] and nothing
    is claimed about it. *)
Inductive regex : Type :=
  | REmpty
  | RChar (c : ascii)
  | RSeq (r1 r2 : regex)
  | RAlt (r1 r2 : regex)
  | RGroup (n : nat) (r : regex).

Definition syntaxChars : list ascii :=
  list_ascii_of_string "^$\.*+?()[]{}|".

Definition isSyntaxChar (c : ascii) : bool :=
  existsb (Ascii.eqb c) syntaxChars.

(** The syntax characters the model reads: the two parentheses and the
    bar.  The others are outside it. *)
Definition isModelled (c : ascii) : bool :=
  negb (isSyntaxChar c)
  || Ascii.eqb c "(" || Ascii.eqb c ")" || Ascii.eqb c "|".

Fixpoint allChars (p : ascii -> bool) (s : string) : bool :=
  match s with
  | EmptyString => true
  | String c s' => p c && allChars p s'
  end.

(** The parser keeps one frame per open group: the number of the group,
    the alternatives already closed by a bar (latest first) and the
    sequence read since. *)
Record frame : Type := mkFrame {
  group : nat;
  alts : list regex;
  cur : regex
}.

Definition closeFrame (f : frame) : regex :=
  fold_left (fun acc a => RAlt a acc) (alts f) (cur f).

Definition push (f : frame) (atom : regex) : frame :=
  mkFrame (group f) (alts f) (RSeq (cur f) atom).

Definition bar (f : frame) : frame :=
  mkFrame (group f) (cur f :: alts f) REmpty.

Inductive parsed : Type :=
  | Pattern (r : regex) (groups : nat)
  | SyntaxError
  | Unsupported.

(** Groups are numbered by their opening parenthesis, left to right;
    [count] is the number of groups opened so far. *)
Fixpoint parse (s : string) (count : nat) (top : frame) (stack : list frame)
  : parsed :=
  match s with
  | EmptyString =>
      match stack with
      | [] => Pattern (closeFrame top) count
      | _ :: _ => SyntaxError                     (* unterminated group *)
      end
  | String c s' =>
      if Ascii.eqb c "(" then
        parse s' (S count) (mkFrame (S count) [] REmpty) (top :: stack)
      else if Ascii.eqb c ")" then
        match stack with
        | [] => SyntaxError                       (* unmatched ')' *)
        | parent :: stack' =>
            parse s' count
              (push parent (RGroup (group top) (closeFrame top))) stack'
        end
      else if Ascii.eqb c "|" then parse s' count (bar top) stack
      else parse s' count (push top (RChar c)) stack
  end.

(** [new RegExp(source, 'gi')] *)
Definition RegExp (source : string) : parsed :=
  if allChars isModelled source
  then parse source 0 (mkFrame 0 [] REmpty) []
  else Unsupported.

(** *** Matching

    A matcher takes the rest of the input, the captures so far and a
    continuation; an alternation tries its left side first and falls back
    to the right side when the continuation fails.  Under the [i] flag two
    code units match when their canonical (upper-case) forms agree. *)
Definition captures := list (nat * string).

Fixpoint lookup (n : nat) (caps : captures) : option string :=
  match caps with
  | [] => None
  | (m, s) :: caps' => if Nat.eqb m n then Some s else lookup n caps'
  end.

Definition state : Type := string * captures.

Definition consumed (input rest : string) : string :=
  substring 0 (String.length input - String.length rest) input.

Fixpoint matcher (r : regex) (input : string) (caps : captures)
    (k : string -> captures -> option state) : option state :=
  match r with
  | REmpty => k input caps
  | RChar c =>
      match input with
      | EmptyString => None
      | String x rest =>
          if Ascii.eqb (upperChar x) (upperChar c) then k rest caps else None
      end
  | RSeq r1 r2 =>
      matcher r1 input caps (fun rest caps' => matcher r2 rest caps' k)
  | RAlt r1 r2 =>
      match matcher r1 input caps k with
      | Some st => Some st
      | None => matcher r2 input caps k
      end
  | RGroup n r' =>
      matcher r' input caps
        (fun rest caps' => k rest ((n, consumed input rest) :: caps'))
  end.

(** A sticky match at the start of [input]: the rest of the input after
    the match and the captures. *)
Definition exec (r : regex) (input : string) : option state :=
  matcher r input [] (fun rest caps => Some (rest, caps)).

(** The captures 1..n of a match, [None] for a group that took no part. *)
Definition capturesOf (n : nat) (caps : captures) : list (option string) :=
  map (fun i => lookup i caps) (seq 1 n).

(** *** [String.prototype.split] with a regular expression

    The loop of the specification keeps two positions, [p] (the end of the
    last match) and [q] (where the next match is tried).  Here [pending] is
    the text between them, [rest] the text from [q] on, and [skip] the
    number of code units of [rest] that the last match still covers.  A
    match at [q] that ends at [p] is ignored; any other match closes the
    pending piece and contributes its captures. *)
Fixpoint splitLoop (r : regex) (n : nat) (pending : string) (skip : nat)
    (rest : string) : list (option string) :=
  match rest with
  | EmptyString => [Some pending]
  | String c rest' =>
      match skip with
      | S skip' => splitLoop r n pending skip' rest'
      | O =>
          match exec r rest with
          | None => splitLoop r n (pending ++ String c "") 0 rest'
          | Some (after, caps) =>
              match (String.length rest - String.length after)%nat with
              | O =>
                  if String.eqb pending "" then
                    splitLoop r n (String c "") 0 rest'
                  else
                    (Some pending :: capturesOf n caps)
                    ++ splitLoop r n (String c "") 0 rest'
              | S len' =>
                  (Some pending :: capturesOf n caps)
                  ++ splitLoop r n "" len' rest'
              end
          end
      end
  end%list.

Definition split (text : string) (r : regex) (n : nat) : list (option string) :=
  match text with
  | EmptyString =>
      match exec r "" with
      | Some _ => []
      | None => [Some ""]
      end
  | _ => splitLoop r n "" 0 text
  end.

(** *** [renderHighlightedText] *)
Inductive node : Type :=
  | Text (s : string)                 (* a bare string child *)
  | Mark (s : string).                (* <mark>s</mark> *)

Inductive rendered : Type :=
  | Plain (text : string)             (* the text itself, no element *)
  | Span (children : list node).      (* <span>children</span> *)

Inductive exception : Type :=
  | RegExpSyntaxError                 (* thrown by [new RegExp] *)
  | TypeError.                        (* [toLowerCase] of undefined *)

Inductive outcome : Type :=
  | Returns (r : rendered)
  | Throws (e : exception)
  | OutsideModel.

(** [parts.map(part => ...)]: a part that is undefined makes
    [part.toLowerCase()] throw. *)
Fixpoint mapParts (query : string) (parts : list (option string))
  : option (list node) :=
  match parts with
  | [] => Some []
  | None :: _ => None
  | Some part :: parts' =>
      match mapParts query parts' with
      | None => None
      | Some nodes =>
          Some ((if String.eqb (toLowerCase part) (toLowerCase query)
                 then Mark part else Text part) :: nodes)
      end
  end.

Definition renderHighlightedText (text query : string) : outcome :=
  if negb (truthy query) then Returns (Plain text)
  else
    match RegExp ("(" ++ query ++ ")") with
    | Unsupported => OutsideModel
    | SyntaxError => Throws RegExpSyntaxError
    | Pattern r n =>
        match mapParts query (split text r n) with
        | None => Throws TypeError
        | Some nodes => Returns (Span nodes)
        end
    end.

(** The text a rendering shows: its segments, concatenated. *)
Definition nodeText (x : node) : string :=
  match x with
  | Text s => s
  | Mark s => s
  end.

Definition shownText (r : rendered) : string :=
  match r with
  | Plain text => text
  | Span children => fold_right (fun x acc => nodeText x ++ acc) "" children
  end.

Definition highlighted (r : rendered) : list string :=
  match r with
  | Plain _ => []
  | Span children =>
      flat_map (fun x => match x with Mark s => [s] | Text _ => [] end) children
  end.

(** *** Queries without syntax characters

    Such a query is a pattern of its own characters, one after the other. *)
Definition isLiteral (query : string) : bool :=
  allChars (fun c => negb (isSyntaxChar c)) query.

Fixpoint literal (acc : regex) (query : string) : regex :=
  match query with
  | EmptyString => acc
  | String c query' => literal (RSeq acc (RChar c)) query'
  end.

Fixpoint noGroups (r : regex) : bool :=
  match r with
  | REmpty | RChar _ => true
  | RSeq r1 r2 | RAlt r1 r2 => noGroups r1 && noGroups r2
  | RGroup _ _ => false
  end.

(** A pattern whose matches carry exactly one capture, the piece of the
    input they matched. *)
Definition oneCapture (r : regex) : Prop :=
  forall input after caps,
    exec r input = Some (after, caps) ->
    exists mid, input = mid ++ after /\ capturesOf 1 caps = [Some mid].

End Highlight.

(* ================================================================== *)
(** ** api/transcribe-file.ts and api/transcribe-youtube.ts *)
(* ================================================================== *)

Module Api.
Import JS.

(** What a [catch] clause receives: an [Error] with its message, or some
    other value, given by its [String(e)] form. *)
Inductive thrown : Type :=
  | ErrorObj (message : string)
  | OtherValue (shown : string).

(** *** Responses *)
Inductive Json : Type :=
  | ErrorBody (error : string)                      (* { error } *)
  | ErrorDetails (error details : string)           (* { error, details } *)
  | TranscriptBody (transcript : string).           (* { transcript } *)

Record Response : Type := mkResponse {
  status : Z;
  headers : list (string * string);
  json : Json
}.

Definition respond (code : Z) (body : Json) : Response :=
  mkResponse code [] body.

(** *** The collaborators

    The handlers talk to the video library, the process environment and
    the AI service.  A [World] fixes what each of them answers; the trace
    of [Event]s records, in order, which of them a run consulted.  The
    fields of a request body are strings when present. *)
Record Format : Type := mkFormat {
  itag : Z;
  container : string
}.

Record VideoInfo : Type := mkInfo {
  lengthSeconds : string;               (* info.videoDetails.lengthSeconds *)
  formats : list Format
}.

Record World : Type := mkWorld {
  API_KEY : option string;              (* process.env.API_KEY *)
  validateURL : string -> bool;
  getInfo : string -> thrown + VideoInfo;
  chooseFormat : list Format -> thrown + option Format;
  (* the audio stream read to its end, as base64; [inl] is the message of
     its 'error' event *)
  audioStream : string -> Format -> string + string;
  (* apiKey, model, prompt, data, mimeType *)
  generateContent :
    string -> string -> string -> string -> string -> thrown + string
}.

Inductive Event : Type :=
  | ValidateURL (url : string)
  | GetInfo (url : string)
  | ChooseFormat
  | Download (url : string) (format : Format)
  | ReadApiKey
  | GenerateContent (model prompt data mimeType : string).

(** *** Runs: a trace and a completion *)
Inductive completion (A : Type) : Type :=
  | Normal (a : A)
  | Throw (e : thrown).
Arguments Normal {A} a.
Arguments Throw {A} e.

Definition M (A : Type) : Type := list Event * completion A.

Definition ret {A} (a : A) : M A := ([], Normal a).

Definition throw {A} (e : thrown) : M A := ([], Throw e).

Definition bind {A B} (m : M A) (f : A -> M B) : M B :=
  match m with
  | (t, Normal a) => let (t', c) := f a in ((t ++ t')%list, c)
  | (t, Throw e) => (t, Throw e)
  end.

Notation "x <- m ;; k" := (bind m (fun x => k))
  (at level 61, m at next level, right associativity).

(** A call to a collaborator: one event, then its answer. *)
Definition call {A} (ev : Event) (answer : thrown + A) : M A :=
  ([ev], match answer with inl e => Throw e | inr a => Normal a end).

Definition observe {A} (ev : Event) (a : A) : M A := ([ev], Normal a).

(** [try { body } catch (error) { handler }] *)
Definition tryCatch {A} (body : M A) (handler : thrown -> M A) : M A :=
  match body with
  | (t, Throw e) => let (t', c) := handler e in ((t ++ t')%list, c)
  | done => done
  end.

(** [!x] for a field or variable that is a string or undefined. *)
Definition falsy (x : option string) : bool :=
  match x with
  | Some s => negb (truthy s)
  | None => true
  end.

(** [error instanceof Error ? error.message : 'An unknown error occurred'] *)
Definition messageOf (e : thrown) : string :=
  match e with
  | ErrorObj message => message
  | OtherValue _ => "An unknown error occurred"
  end.

Definition methodNotAllowed : Response :=
  mkResponse 405 [("Allow", "POST")] (ErrorBody "Method Not Allowed").

Definition keyNotSet : thrown :=
  ErrorObj "API_KEY environment variable is not set.".

Definition credentialMessage : string := "伺服器 API 金鑰設定錯誤。".

Definition model : string := "gemini-2.5-flash".

(** **** transcribe-file.ts *)
Module File.

(** [req.body]: undefined when the request brought no body the platform
    could parse, otherwise an object with, maybe, the two fields. *)
Inductive Body : Type :=
  | noBody
  | mkBody (fileData mimeType : option string).

Definition fileData (b : Body) : option string :=
  match b with
  | mkBody data _ => data
  | noBody => None
  end.

Definition mimeType (b : Body) : option string :=
  match b with
  | mkBody _ mime => mime
  | noBody => None
  end.

Record Request : Type := mkRequest {
  method : string;
  body : Body
}.

(** The TypeError of [const { fileData, mimeType } = req.body] on an
    undefined body. *)
Definition destructuringError : thrown :=
  ErrorObj "Cannot destructure property 'fileData' of 'req.body' as it is undefined.".

Definition prompt : string :=
  "這是一段影音檔案，請將其內容完整地轉錄為繁體中文的逐字稿。請盡可能區分不同的說話者，例如使用 "
  ++ dquote ++ "發言者1" ++ dquote ++ "、" ++ dquote ++ "發言者2" ++ dquote
  ++ " 等標籤。".

(** The [catch] clause. *)
Definition onError (error : thrown) : Response :=
  let errorMessage := messageOf error in
  if includes (toLowerCase errorMessage) "api key"
     || includes errorMessage "API_KEY"
  then respond 500 (ErrorBody credentialMessage)
  else if includes (toLowerCase errorMessage) "resource has been exhausted"
          || includes (toLowerCase errorMessage) "request entity too large"
  then respond 413 (ErrorBody "檔案過大，無法處理。請上傳小於 4.5MB 的檔案。")
  else respond 500 (ErrorDetails "處理檔案時發生錯誤。" errorMessage).

Definition handler (w : World) (req : Request) : M Response :=
  if negb (String.eqb (method req) "POST") then ret methodNotAllowed
  else
    match body req with
    | noBody => throw destructuringError          (* before the [try] *)
    | mkBody fileData mimeType =>
        match fileData, mimeType with
        | Some data, Some mime =>
            if negb (truthy data) || negb (truthy mime)
            then ret (respond 400 (ErrorBody "遺失檔案資料或 MIME 類型。"))
            else
              tryCatch
                (key <- observe ReadApiKey (API_KEY w) ;;
                 match key with
                 | Some apiKey =>
                     if negb (truthy apiKey) then throw keyNotSet
                     else
                       text <- call (GenerateContent model prompt data mime)
                                 (generateContent w apiKey model prompt data mime) ;;
                       ret (respond 200 (TranscriptBody text))
                 | None => throw keyNotSet
                 end)
                (fun error => ret (onError error))
        | _, _ => ret (respond 400 (ErrorBody "遺失檔案資料或 MIME 類型。"))
        end
    end.

(** The conditions under which a request gets as far as the AI service:
    a POST with both fields, and a key in the environment. *)
Definition reachesService (w : World) (req : Request)
    (data mime apiKey : string) : Prop :=
  method req = "POST" /\
  fileData (body req) = Some data /\ truthy data = true /\
  mimeType (body req) = Some mime /\ truthy mime = true /\
  API_KEY w = Some apiKey /\ truthy apiKey = true.

End File.

(** **** transcribe-youtube.ts *)
Module Youtube.

(** [req.body]: undefined when the request brought no body the platform
    could parse, otherwise an object with, maybe, a [url]. *)
Inductive Body : Type :=
  | noBody
  | mkBody (url : option string).

Record Request : Type := request {
  method : string;
  body : Body
}.

(** [req.body.url], where there is a body. *)
Definition url (req : Request) : option string :=
  match body req with
  | mkBody u => u
  | noBody => None
  end.

(** A request whose body was parsed. *)
Definition mkRequest (method : string) (url : option string) : Request :=
  request method (mkBody url).

(** The TypeError of [const { url } = req.body] on an undefined body. *)
Definition destructuringError : thrown :=
  ErrorObj "Cannot destructure property 'url' of 'req.body' as it is undefined.".

Definition MAX_VIDEO_DURATION_SECONDS : Z := 600.

Definition prompt : string :=
  "這是一段音訊，請將其內容完整地轉錄為繁體中文的逐字稿。請盡可能區分不同的說話者，例如使用 "
  ++ dquote ++ "發言者1" ++ dquote ++ "、" ++ dquote ++ "發言者2" ++ dquote
  ++ " 等標籤。".

Definition invalidURL : Response :=
  respond 400 (ErrorBody "無效或遺失 YouTube 連結").

Definition durationExceeded : Response :=
  respond 400
    (ErrorBody ("影片長度超過 "
                ++ toString (MAX_VIDEO_DURATION_SECONDS / 60)
                ++ " 分鐘限制。")).

Definition noAudioFormat : Response :=
  respond 400 (ErrorBody "找不到此影片的音訊格式。").

(** [streamToBuffer(audioStream)] followed by [toString('base64')]: an
    'error' event rejects with a new [Error]. *)
Definition streamToBuffer (w : World) (u : string) (f : Format) : M string :=
  call (Download u f)
    (match audioStream w u f with
     | inl message => inl (ErrorObj ("Stream error: " ++ message))
     | inr audioBase64 => inr audioBase64
     end).

(** The [catch] clause. *)
Definition onError (error : thrown) : Response :=
  let errorMessage := messageOf error in
  if includes (toLowerCase errorMessage) "api key"
     || includes errorMessage "API_KEY"
  then respond 500 (ErrorBody credentialMessage)
  else if includes (toLowerCase errorMessage) "resource has been exhausted"
  then respond 413 (ErrorBody "影片檔案過大，無法處理。")
  else respond 500 (ErrorDetails "處理 YouTube 影片時發生錯誤。" errorMessage).

(** The body of the [try] block. *)
Definition attempt (w : World) (u : string) : M Response :=
  info <- call (GetInfo u) (getInfo w u) ;;
  let duration := parseInt (lengthSeconds info) in
  if gt duration MAX_VIDEO_DURATION_SECONDS then ret durationExceeded
  else
    audioFormat <- call ChooseFormat (chooseFormat w (formats info)) ;;
    match audioFormat with
    | None => ret noAudioFormat
    | Some format =>
        audioBase64 <- streamToBuffer w u format ;;
        key <- observe ReadApiKey (API_KEY w) ;;
        match key with
        | Some apiKey =>
            if negb (truthy apiKey) then throw keyNotSet
            else
              text <- call (GenerateContent model prompt audioBase64 "audio/mp4")
                        (generateContent w apiKey model prompt audioBase64
                           "audio/mp4") ;;
              ret (respond 200 (TranscriptBody text))
        | None => throw keyNotSet
        end
    end.

Definition handler (w : World) (req : Request) : M Response :=
  if negb (String.eqb (method req) "POST") then ret methodNotAllowed
  else
    match body req with
    | noBody => throw destructuringError          (* before the [try] *)
    | mkBody None => ret invalidURL
    | mkBody (Some u) =>
        if negb (truthy u) then ret invalidURL
        else
          valid <- observe (ValidateURL u) (validateURL w u) ;;
          if negb valid then ret invalidURL
          else tryCatch (attempt w u) (fun error => ret (onError error))
    end.

(** The conditions under which a request gets as far as the download: a
    POST with a URL the library accepts, metadata with a duration that is
    not over the limit, and an audio format. *)
Definition reachesDownload (w : World) (req : Request) (u : string)
    (info : VideoInfo) (format : Format) : Prop :=
  method req = "POST" /\ url req = Some u /\ truthy u = true /\
  validateURL w u = true /\ getInfo w u = inr info /\
  gt (parseInt (lengthSeconds info)) MAX_VIDEO_DURATION_SECONDS = false /\
  chooseFormat w (formats info) = inr (Some format).

(** ... and as far as the AI service: the download succeeds and the
    environment has a key. *)
Definition reachesService (w : World) (req : Request) (u : string)
    (info : VideoInfo) (format : Format) (audio apiKey : string) : Prop :=
  reachesDownload w req u info format /\
  audioStream w u format = inr audio /\
  API_KEY w = Some apiKey /\ truthy apiKey = true.

End Youtube.

(** *** Order of effects

    In a trace, every reading of the key comes after a download. *)
Fixpoint keyReadsFollowDownload (downloaded : bool) (t : list Event) : bool :=
  match t with
  | [] => true
  | Download _ _ :: t' => keyReadsFollowDownload true t'
  | ReadApiKey :: t' => downloaded && keyReadsFollowDownload downloaded t'
  | _ :: t' => keyReadsFollowDownload downloaded t'
  end.

Definition downloadBeforeKey (t : list Event) : Prop :=
  forall pre post,
    t = (pre ++ ReadApiKey :: post)%list ->
    exists u f, In (Download u f) pre.

(** *** A world for the examples *)
Definition sampleFormat : Format := mkFormat 140 "mp4".

Definition sampleWorld (key : option string) (len : string)
    (answer : thrown + string) : World :=
  mkWorld key
    (fun u => startsWith u "https://www.youtube.com/watch?v=")
    (fun _ => inr (mkInfo len [sampleFormat]))
    (fun fs =>
       match fs with
       | [] => inl (ErrorObj "No such format found: lowestaudio")
       | f :: _ => inr (Some f)
       end)
    (fun _ _ => inr "QVVESU8=")
    (fun _ _ _ _ _ => answer).

Definition sampleUrl : string := "https://www.youtube.com/watch?v=abc".

Definition sampleFileRequest : File.Request :=
  File.mkRequest "POST" (File.mkBody (Some "QVVESU8=") (Some "audio/mpeg")).

Definition sampleUrlRequest : Youtube.Request :=
  Youtube.mkRequest "POST" (Some sampleUrl).

End Api.

(* ================================================================== *)
(** ** The VideoTranscriber component, in its two versions *)
(* ================================================================== *)

Module Transcriber.
Import JS.
Import Api (thrown, ErrorObj, OtherValue, completion, Normal, Throw).

(** [type InputType = 'url' | 'file'] *)
Inductive InputType : Type := InputUrl | InputFile.

(** A [File] of the browser, by its metadata. *)
Record File : Type := mkFile {
  name : string;
  size : Z;
  type : string
}.

(** [e instanceof Error ? e.message : String(e)] *)
Definition messageOf (e : thrown) : string :=
  match e with
  | ErrorObj message => message
  | OtherValue shown => shown
  end.

Definition isFile (t : InputType) : bool :=
  match t with InputFile => true | InputUrl => false end.

Definition isUrl (t : InputType) : bool := negb (isFile t).

(** *** The version that posts to the backend *)
Module Proxy.

Record State : Type := mkState {
  inputType : InputType;
  urlValue : string;
  file : option File;
  fileName : string;
  isLoading : bool;
  transcript : string;
  error : string;
  isCopied : bool
}.

(** The [useState] initial values. *)
Definition initial : State :=
  mkState InputUrl "" None "" false "" "" false.

Definition setInputType v s :=
  mkState v (urlValue s) (file s) (fileName s) (isLoading s)
    (transcript s) (error s) (isCopied s).
Definition setUrlValue v s :=
  mkState (inputType s) v (file s) (fileName s) (isLoading s)
    (transcript s) (error s) (isCopied s).
Definition setFile v s :=
  mkState (inputType s) (urlValue s) v (fileName s) (isLoading s)
    (transcript s) (error s) (isCopied s).
Definition setFileName v s :=
  mkState (inputType s) (urlValue s) (file s) v (isLoading s)
    (transcript s) (error s) (isCopied s).
Definition setIsLoading v s :=
  mkState (inputType s) (urlValue s) (file s) (fileName s) v
    (transcript s) (error s) (isCopied s).
Definition setTranscript v s :=
  mkState (inputType s) (urlValue s) (file s) (fileName s) (isLoading s)
    v (error s) (isCopied s).
Definition setError v s :=
  mkState (inputType s) (urlValue s) (file s) (fileName s) (isLoading s)
    (transcript s) v (isCopied s).
Definition setIsCopied v s :=
  mkState (inputType s) (urlValue s) (file s) (fileName s) (isLoading s)
    (transcript s) (error s) v.

Definition resetState (s : State) : State :=
  setIsCopied false
    (setError "" (setTranscript "" (setFileName ""
      (setFile None (setUrlValue "" s))))).

Definition handleTypeChange (t : InputType) (s : State) : State :=
  resetState (setInputType t s).

(** What the component sends over the network. *)
Inductive Payload : Type :=
  | UrlPayload (u : string)                       (* { url } *)
  | FilePayload (fileData mimeType : string).     (* { fileData, mimeType } *)

Inductive Event : Type :=
  | Fetch (endpoint : string) (payload : Payload).

(** The parsed body of a response: [data.error] and [data.transcript]. *)
Record Data : Type := mkData {
  data_error : option string;
  data_transcript : string
}.

Record HttpResponse : Type := mkHttp {
  ok : bool;
  responseJson : thrown + Data                    (* response.json() *)
}.

Record World : Type := mkWorld {
  (* the FileReader: the base64 part of the data URL, or its error *)
  fileToBase64 : File -> thrown + string;
  fetch : string -> Payload -> thrown + HttpResponse
}.

Definition Run (A : Type) : Type := list Event * completion A.

Definition MAX_UPLOAD_BYTES : Z := 9 * 1024 * 1024 / 2.   (* 4.5 * 1024 * 1024 *)

Definition tooLarge : thrown :=
  ErrorObj "檔案大小超過 4.5MB 限制，無法上傳。".

(** The part of the [try] block that obtains [response]. *)
Definition request (w : World) (s : State) : Run HttpResponse :=
  match inputType s with
  | InputUrl =>
      ([Fetch "/api/transcribe-youtube" (UrlPayload (urlValue s))],
       match fetch w "/api/transcribe-youtube" (UrlPayload (urlValue s)) with
       | inl e => Throw e
       | inr r => Normal r
       end)
  | InputFile =>
      match file s with
      | None => ([], Throw (ErrorObj "請選擇一個檔案。"))
      | Some f =>
          if MAX_UPLOAD_BYTES <? size f then ([], Throw tooLarge)
          else
            match fileToBase64 w f with
            | inl e => ([], Throw e)
            | inr fileData =>
                ([Fetch "/api/transcribe-file" (FilePayload fileData (type f))],
                 match fetch w "/api/transcribe-file"
                         (FilePayload fileData (type f)) with
                 | inl e => Throw e
                 | inr r => Normal r
                 end)
            end
      end
  end.

(** The rest of the [try] block: the transcript, or what is thrown. *)
Definition attempt (w : World) (s : State) : Run string :=
  match request w s with
  | (t, Throw e) => (t, Throw e)
  | (t, Normal response) =>
      match responseJson response with
      | inl e => (t, Throw e)
      | inr data =>
          if negb (ok response) then
            (t, Throw (ErrorObj
               (match data_error data with
                | Some m => if truthy m then m
                            else "從伺服器取得逐字稿時發生錯誤。"
                | None => "從伺服器取得逐字稿時發生錯誤。"
                end)))
          else (t, Normal (data_transcript data))
      end
  end.

(** [handleTranscribe], run to its end: the requests made and the
    state the component is left in. *)
Definition handleTranscribe (w : World) (s : State) : list Event * State :=
  if (isUrl (inputType s) && negb (truthy (trim (urlValue s))))
     || (isFile (inputType s) && match file s with None => true | Some _ => false end)
  then ([], setError "請提供影片連結或上傳檔案。" s)
  else
    let s1 := setIsCopied false (setError "" (setTranscript ""
                (setIsLoading true s))) in
    let (t, c) := attempt w s1 in
    let s2 :=
      match c with
      | Normal text => setTranscript text s1
      | Throw e =>
          let errorMessage := messageOf e in
          if includes errorMessage "Failed to fetch"
          then setError "無法連接到後端服務，請檢查網路連線或稍後再試。" s1
          else setError ("轉換失敗：" ++ errorMessage) s1
      end in
    (t, setIsLoading false s2).

End Proxy.

(** *** The version that calls the AI service from the browser *)
Module Direct.

Record State : Type := mkState {
  inputType : InputType;
  urlValue : string;
  file : option File;
  fileName : string;
  isLoading : bool;
  transcript : string;
  error : string
}.

Definition initial : State :=
  mkState InputFile "" None "" false "" "".

Definition setInputType v s :=
  mkState v (urlValue s) (file s) (fileName s) (isLoading s)
    (transcript s) (error s).
Definition setUrlValue v s :=
  mkState (inputType s) v (file s) (fileName s) (isLoading s)
    (transcript s) (error s).
Definition setFile v s :=
  mkState (inputType s) (urlValue s) v (fileName s) (isLoading s)
    (transcript s) (error s).
Definition setFileName v s :=
  mkState (inputType s) (urlValue s) (file s) v (isLoading s)
    (transcript s) (error s).
Definition setIsLoading v s :=
  mkState (inputType s) (urlValue s) (file s) (fileName s) v
    (transcript s) (error s).
Definition setTranscript v s :=
  mkState (inputType s) (urlValue s) (file s) (fileName s) (isLoading s)
    v (error s).
Definition setError v s :=
  mkState (inputType s) (urlValue s) (file s) (fileName s) (isLoading s)
    (transcript s) v.

Definition resetState (s : State) : State :=
  setError "" (setTranscript "" (setFileName ""
    (setFile None (setUrlValue "" s)))).

Definition handleTypeChange (t : InputType) (s : State) : State :=
  resetState (setInputType t s).

Inductive Event : Type :=
  | GenerateContent (model prompt data mimeType : string).

Record World : Type := mkWorld {
  API_KEY : option string;            (* process.env.API_KEY of the bundle *)
  (* [new GoogleGenAI({ apiKey })]: what the constructor throws, if anything *)
  newGoogleGenAI : option string -> option thrown;
  (* [fileToGenerativePart]: the base64 data of the file, or the rejection *)
  readAsDataURL : File -> thrown + string;
  (* model, prompt, data, mimeType *)
  generateContent : string -> string -> string -> string -> thrown + string
}.

Definition Run (A : Type) : Type := list Event * completion A.

Definition prompt : string :=
  "請將這段影片轉為逐字稿。如果可能，請標示出不同的發言者（例如：發言者A、發言者B）。".

(** The [try] block; [None] is the run that sets no transcript. *)
Definition attempt (w : World) (s : State) : Run (option string) :=
  match newGoogleGenAI w (API_KEY w) with
  | Some e => ([], Throw e)
  | None =>
      match file s with
      | None => ([], Normal None)
      | Some f =>
          match readAsDataURL w f with
          | inl e => ([], Throw e)
          | inr data =>
              ([GenerateContent Api.model prompt data (type f)],
               match generateContent w Api.model prompt data (type f) with
               | inl e => Throw e
               | inr text => Normal (Some text)
               end)
          end
      end
  end.

Definition handleTranscribe (w : World) (s : State) : list Event * State :=
  if (isUrl (inputType s) && negb (truthy (trim (urlValue s))))
     || (isFile (inputType s) && match file s with None => true | Some _ => false end)
  then ([], setError "請提供影片連結或上傳檔案。" s)
  else
    let s1 := setError "" (setTranscript "" (setIsLoading true s)) in
    if isUrl (inputType s) then
      ([], setIsLoading false
             (setError "YouTube 連結轉換功能需要後端伺服器支援，目前暫不提供。請使用檔案上傳功能。" s1))
    else
      let (t, c) := attempt w s1 in
      let s2 :=
        match c with
        | Normal (Some text) => setTranscript text s1
        | Normal None => s1
        | Throw e =>
            let errorMessage := messageOf e in
            if includes (toLowerCase errorMessage) "api key"
            then setError "轉換失敗：API 金鑰無效或未設定。請檢查您在 Vercel 上的環境變數設定。" s1
            else setError "轉換失敗，可能影片格式不支援或檔案過大，請稍後再試。" s1
        end in
      (t, setIsLoading false s2).

End Direct.

(** *** Worlds and a file for the examples *)
Definition bigFile : File := mkFile "talk.mp4" (5 * 1024 * 1024) "video/mp4".

Definition sampleProxyWorld : Proxy.World :=
  Proxy.mkWorld
    (fun _ => inr "QUJD")
    (fun _ _ => inr (Proxy.mkHttp true (inr (Proxy.mkData None "text")))).

Definition sampleDirectWorld : Direct.World :=
  Direct.mkWorld (Some "k") (fun _ => None) (fun _ => inr "QUJD")
    (fun _ _ _ _ => inr "text").

End Transcriber.

(* ================================================================== *)
(** ** components/NewsViewer.tsx: the rest of the view *)
(* ================================================================== *)

Module NewsView.
Import JS.

(** [NewsChannel] of types.ts. *)
Record NewsChannel : Type := mkChannel {
  id : string;
  name : string
}.

Definition unknownSource : string := "未知來源".

(** [NEWS_CHANNELS.find(c => c.id === id)?.name || '未知來源'], for a given
    list of channels. *)
Definition getChannelName (NEWS_CHANNELS : list NewsChannel) (id' : string)
  : string :=
  match find (fun c => String.eqb (id c) id') NEWS_CHANNELS with
  | Some c => if truthy (name c) then name c else unknownSource
  | None => unknownSource
  end.

(** [filteredNews.length > 0 ? <grid of cards> : <notice>] *)
Inductive grid : Type :=
  | Cards (articles : list NewsViewer.NewsArticle)
  | NoNews.

Definition newsGrid (filteredNews : list NewsViewer.NewsArticle) : grid :=
  if (0 <? List.length filteredNews)%nat then Cards filteredNews else NoNews.

(** A query that filters nothing: the channel filter is ["all"] and the
    search string trims to the empty string. *)
Definition unfiltered (query : string * string) : bool :=
  String.eqb (fst query) "all" && String.eqb (trim (snd query)) "".

End NewsView.

(* ================================================================== *)
(** ** The highlighter on queries without syntax characters *)
(* ================================================================== *)

Module HighlightMore.
Import JS Highlight.

(** All code units, for facts checked unit by unit. *)
Definition allAscii : list ascii := map ascii_of_nat (seq 0 256).

(** What the pattern of a literal query does at the head of an input: it
    reads the query's code units one by one, ignoring case, and leaves the
    rest of the input. *)
Fixpoint matchLiteral (q input : string) : option string :=
  match q with
  | EmptyString => Some input
  | String c q' =>
      match input with
      | EmptyString => None
      | String x rest =>
          if Ascii.eqb (upperChar x) (upperChar c)
          then matchLiteral q' rest else None
      end
  end.

End HighlightMore.

(* ================================================================== *)
(** ** The handlers: vocabulary for whole runs, and the stream reader *)
(* ================================================================== *)

Module ApiMore.
Import JS Api.




Definition startOf (t full : list Event) : Prop :=
  exists rest, full = (t ++ rest)%list.


(** *** [streamToBuffer]

    The promise of [streamToBuffer] over the events a stream emits: 'data'
    pushes a chunk, 'end' resolves with the chunks concatenated, 'error'
    rejects; the first of 'end' and 'error' settles the promise and nothing
    after it counts.  A stream that emits neither leaves it pending. *)
Inductive StreamEvent : Type :=
  | OnData (chunk : string)
  | OnEnd
  | OnError (message : string).

Inductive settled : Type :=
  | Resolved (buffer : string)
  | Rejected (error : thrown).

Fixpoint settle (chunks : list string) (events : list StreamEvent)
  : option settled :=
  match events with
  | [] => None
  | OnData chunk :: events' => settle (chunks ++ [chunk])%list events'
  | OnEnd :: _ => Some (Resolved (String.concat "" chunks))
  | OnError message :: _ =>
      Some (Rejected (ErrorObj ("Stream error: " ++ message)))
  end.

Definition streamToBuffer (events : list StreamEvent) : option settled :=
  settle [] events.

End ApiMore.

(* ================================================================== *)
(** ** The VideoTranscriber component: the other handlers *)
(* ================================================================== *)

Module DataUrl.
Import JS.

(** [s.split(',')]: the pieces between the commas, [cur] being the piece
    under way. *)
Fixpoint splitComma (cur s : string) : list string :=
  match s with
  | EmptyString => [cur]
  | String c s' =>
      if Ascii.eqb c ","
      then cur :: splitComma "" s'
      else splitComma (cur ++ String c "") s'
  end.

(** [reader.result.split(',')[1]], what [fileToBase64] and
    [fileToGenerativePart] resolve with; [None] is undefined. *)
Definition payloadOf (result : string) : option string :=
  nth_error (splitComma "" result) 1.

Fixpoint noComma (s : string) : bool :=
  match s with
  | EmptyString => true
  | String c s' => negb (Ascii.eqb c ",") && noComma s'
  end.

End DataUrl.

Module ProxyMore.
Import JS Transcriber Transcriber.Proxy.

(** [handleFileChange]: [event.target.files?.[0]] is the file picked, if any. *)
Definition handleFileChange (selectedFile : option File) (s : State) : State :=
  match selectedFile with
  | Some f =>
      setError "" (setTranscript "" (setFileName (name f) (setFile (Some f) s)))
  | None => s
  end.

(** The [onChange] of the URL input. *)
Definition handleUrlInput (value : string) (s : State) : State :=
  setError "" (setUrlValue value s).

(** The first test of [handleTranscribe]: there is nothing to submit. *)
Definition nothingToSubmit (s : State) : bool :=
  (isUrl (inputType s) && negb (truthy (trim (urlValue s))))
  || (isFile (inputType s) && match file s with None => true | Some _ => false end).

(** What the [catch] clause of [handleTranscribe] shows for a message. *)
Definition shown (errorMessage : string) : string :=
  if includes errorMessage "Failed to fetch"
  then "無法連接到後端服務，請檢查網路連線或稍後再試。"
  else "轉換失敗：" ++ errorMessage.

(** The request a state stands for: the endpoint of its input mode, with
    the URL as typed or with what the reader makes of the picked file and
    the file's own type. *)
Definition fitsMode (w : World) (s : State) (ev : Event) : Prop :=
  match inputType s with
  | InputUrl => ev = Fetch "/api/transcribe-youtube" (UrlPayload (urlValue s))
  | InputFile =>
      exists f fileData,
        file s = Some f /\ fileToBase64 w f = inr fileData /\
        ev = Fetch "/api/transcribe-file" (FilePayload fileData (type f))
  end.

End ProxyMore.

Module DirectMore.
Import JS Transcriber Transcriber.Direct.

Definition handleFileChange (selectedFile : option File) (s : State) : State :=
  match selectedFile with
  | Some f =>
      setError "" (setTranscript "" (setFileName (name f) (setFile (Some f) s)))
  | None => s
  end.

Definition nothingToSubmit (s : State) : bool :=
  (isUrl (inputType s) && negb (truthy (trim (urlValue s))))
  || (isFile (inputType s) && match file s with None => true | Some _ => false end).

Definition keyMessage : string :=
  "轉換失敗：API 金鑰無效或未設定。請檢查您在 Vercel 上的環境變數設定。".

Definition failureMessage : string :=
  "轉換失敗，可能影片格式不支援或檔案過大，請稍後再試。".

Definition urlUnavailable : string :=
  "YouTube 連結轉換功能需要後端伺服器支援，目前暫不提供。請使用檔案上傳功能。".

(** What the [try] block comes to for a picked file: the first failure
    among the constructor, the reader and the AI call, or the text. *)
Definition outcome (w : World) (f : File) : Api.thrown + string :=
  match newGoogleGenAI w (API_KEY w) with
  | Some e => inl e
  | None =>
      match readAsDataURL w f with
      | inl e => inl e
      | inr data => generateContent w Api.model prompt data (type f)
      end
  end.

End DirectMore.

(* ================================================================== *)
(** ** The component in front of the two handlers *)
(* ================================================================== *)

Module EndToEnd.
Import JS Api Transcriber.

(** [response.ok] *)
Definition isOk (status : Z) : bool := (200 <=? status) && (status <=? 299).

(** [response.json()], as far as the component reads it: [data.error] and
    [data.transcript] (read only from a response that is OK). *)
Definition toData (j : Json) : Proxy.Data :=
  match j with
  | ErrorBody e => Proxy.mkData (Some e) ""
  | ErrorDetails e _ => Proxy.mkData (Some e) ""
  | TranscriptBody t => Proxy.mkData None t
  end.

Definition respondTo (run : M Response) : thrown + Proxy.HttpResponse :=
  match snd run with
  | Normal r => inr (Proxy.mkHttp (isOk (status r)) (inr (toData (json r))))
  | Throw e => inl e
  end.

(** The request a handler receives for what the component posts. *)
Definition urlRequest (payload : Proxy.Payload) : Youtube.Request :=
  Youtube.mkRequest "POST"
    match payload with
    | Proxy.UrlPayload u => Some u
    | Proxy.FilePayload _ _ => None
    end.

Definition fileRequest (payload : Proxy.Payload) : File.Request :=
  File.mkRequest "POST"
    match payload with
    | Proxy.FilePayload fileData mimeType => File.mkBody (Some fileData) (Some mimeType)
    | Proxy.UrlPayload _ => File.mkBody None None
    end.

(** [fetch] answered by the handlers: each file under api/ serves the path
    of its name, every request reaches its handler, and the JSON body comes
    back as sent.  Another path has no handler and no JSON body. *)
Definition backend (w : Api.World) (endpoint : string) (payload : Proxy.Payload)
  : thrown + Proxy.HttpResponse :=
  if String.eqb endpoint "/api/transcribe-youtube"
  then respondTo (Youtube.handler w (urlRequest payload))
  else if String.eqb endpoint "/api/transcribe-file"
  then respondTo (File.handler w (fileRequest payload))
  else inr (Proxy.mkHttp false (inl (ErrorObj "Unexpected token")))
.

Definition served (reader : File -> thrown + string) (w : Api.World)
  : Proxy.World :=
  Proxy.mkWorld reader (backend w).

End EndToEnd.

(* ================================================================== *)
(** ** Facts about the string primitives *)
(* ================================================================== *)

Module JSFacts.
Import JS.

Example toLowerCase_mixed : toLowerCase "API Key [Z]" = "api key [z]".
Proof. reflexivity. Qed.

Example trim_spaces : trim (String (ascii_of_N 0x09) "  a b  ") = "a b".
Proof. reflexivity. Qed.

(** The ideographic space U+3000 is white space too. *)
Example trim_ideographic :
  trim (String (ascii_of_N 0xE3) (String (ascii_of_N 0x80) (String (ascii_of_N 0x80) " "))) = "".
Proof. reflexivity. Qed.

Example parseInt_600 : parseInt "600" = Some 600.
Proof. reflexivity. Qed.

Example parseInt_prefix : parseInt " -12.5s" = Some (-12).
Proof. reflexivity. Qed.

Example parseInt_NaN : parseInt "abc" = None.
Proof. reflexivity. Qed.

Example includes_middle : includes "transcribe" "scri" = true.
Proof. reflexivity. Qed.

Lemma app_nil_r (s : string) : s ++ "" = s.
Proof. induction s; simpl; congruence. Qed.

Lemma app_assoc (a b c : string) : (a ++ b) ++ c = a ++ b ++ c.
Proof. induction a; simpl; congruence. Qed.

Lemma length_app (a b : string) :
  String.length (a ++ b) = (String.length a + String.length b)%nat.
Proof. induction a; simpl; congruence. Qed.

Lemma substring_prefix (a b : string) :
  substring 0 (String.length a) (a ++ b) = a.
Proof.
  induction a as [|c a IH]; simpl.
  - now destruct b.
  - now rewrite IH.
Qed.

Lemma toLowerCase_app (a b : string) :
  toLowerCase (a ++ b) = toLowerCase a ++ toLowerCase b.
Proof.
  induction a as [|c a IH]; simpl; [reflexivity | now rewrite IH].
Qed.

(** A split of the lower-cased text comes from a split of the text. *)
Lemma toLowerCase_split (s a b : string) :
  toLowerCase s = a ++ b ->
  exists x y, s = x ++ y /\ toLowerCase x = a /\ toLowerCase y = b.
Proof.
  revert s; induction a as [|c a IH]; intros s H.
  - exists "", s; simpl in *; auto.
  - destruct s as [|d s]; simpl in H; [discriminate|].
    injection H as Hc Hs.
    destruct (IH _ Hs) as (x & y & -> & Hx & Hy).
    exists (String d x), y; simpl; repeat split; congruence.
Qed.

Lemma startsWith_spec (s p : string) :
  startsWith s p = true <-> exists post, s = p ++ post.
Proof.
  revert s; induction p as [|b p IH]; intros s; simpl.
  - split; [intros _; now exists s | reflexivity].
  - destruct s as [|a s].
    + split; [discriminate | intros [post H]; discriminate].
    + rewrite andb_true_iff, IH, Ascii.eqb_eq. split.
      * intros [-> [post ->]]; now exists post.
      * intros [post H]; injection H as -> ->; split; eauto.
Qed.

Lemma includes_spec (s sub : string) :
  includes s sub = true <-> exists pre post, s = pre ++ sub ++ post.
Proof.
  induction s as [|a s IH].
  - simpl. rewrite orb_false_r, startsWith_spec. split.
    + intros [post H]; now exists "", post.
    + intros (pre & post & H). destruct pre; simpl in H; [eauto | discriminate].
  - simpl. rewrite orb_true_iff, startsWith_spec, IH. split.
    + intros [[post H] | (pre & post & H)].
      * now exists "", post.
      * exists (String a pre), post; simpl; now rewrite H.
    + intros (pre & post & H). destruct pre as [|c pre]; simpl in H.
      * left; eauto.
      * right; injection H as _ H; eauto.
Qed.

Lemma includes_occurs (s sub : string) :
  includes s sub = true <-> occurs sub s.
Proof. apply includes_spec. Qed.

(** [needle] occurs in [s] in some casing: a piece of [s] lower-cases to the
    lower-cased needle. *)
Definition occursAnyCase (needle s : string) : Prop :=
  exists pre mid post,
    s = pre ++ mid ++ post /\ toLowerCase mid = toLowerCase needle.

Lemma occursAnyCase_includes (needle s : string) :
  occursAnyCase needle s <->
  includes (toLowerCase s) (toLowerCase needle) = true.
Proof.
  rewrite includes_spec; split.
  - intros (pre & mid & post & -> & H).
    exists (toLowerCase pre), (toLowerCase post).
    now rewrite !toLowerCase_app, H.
  - intros (pre & post & H).
    apply toLowerCase_split in H as (x & y & -> & Hx & Hy).
    apply toLowerCase_split in Hy as (m & z & -> & Hm & Hz).
    now exists x, m, z.
Qed.

End JSFacts.

(* ================================================================== *)
(** ** The article query: what it returns and what it does to the store *)
(* ================================================================== *)

Module NewsViewerFacts.
Import JS JSFacts NewsViewer.

Example isoDate_epoch : isoDate "1970-01-01" = Some 0.
Proof. reflexivity. Qed.

Example isoDate_2024 : isoDate "2024-03-01" = Some 1709251200000.
Proof. reflexivity. Qed.

Lemma filter_all {A} (l : list A) : filter (fun _ => true) l = l.
Proof. induction l; simpl; congruence. Qed.

Lemma filter_filter {A} (f g : A -> bool) (l : list A) :
  filter f (filter g l) = filter (fun a => g a && f a) l.
Proof.
  induction l as [|a l IH]; simpl; [reflexivity|].
  destruct (g a); simpl; [destruct (f a)|]; now rewrite IH.
Qed.

Section Query.
Variable toLowerCase : string -> string.
Variable Date_getTime : string -> option Z.

Local Abbreviation byDate := (byDateDesc Date_getTime).
Local Abbreviation selects := (NewsViewer.selects toLowerCase).
Local Abbreviation result := (NewsViewer.result toLowerCase Date_getTime).
Local Abbreviation storeAfter := (NewsViewer.storeAfter toLowerCase Date_getTime).
Local Abbreviation storeAfterAll :=
  (NewsViewer.storeAfterAll toLowerCase Date_getTime).
Local Abbreviation validDate := (validDate Date_getTime).
Local Abbreviation notOlder := (notOlder Date_getTime).
Local Abbreviation timeIs := (timeIs Date_getTime).

(** **** The sort *)

Lemma insert_perm (x : NewsArticle) (l : list NewsArticle) :
  Permutation (insert byDate x l) (x :: l).
Proof.
  induction l as [|y l IH]; simpl; [reflexivity|].
  destruct (SortCompare byDate x y <=? 0); [reflexivity|].
  rewrite IH. apply perm_swap.
Qed.

Lemma sorted_perm (l : list NewsArticle) :
  Permutation (sorted byDate l) l.
Proof.
  induction l as [|x l IH]; simpl; [reflexivity|].
  now rewrite insert_perm, IH.
Qed.

Lemma SortCompare_valid (x y : NewsArticle) :
  validDate x -> validDate y ->
  exists tx ty,
    Date_getTime (date x) = Some tx /\ Date_getTime (date y) = Some ty /\
    SortCompare byDate x y = ty - tx.
Proof.
  unfold NewsViewer.validDate, SortCompare, byDateDesc. intros Hx Hy.
  destruct (Date_getTime (date x)) as [tx|]; [|contradiction].
  destruct (Date_getTime (date y)) as [ty|]; [|contradiction].
  now exists tx, ty.
Qed.

Lemma notOlder_trans (a b c : NewsArticle) :
  notOlder a b -> notOlder b c -> notOlder a c.
Proof.
  intros (ta & tb & Ha & Hb & Hab) (tb' & tc & Hb' & Hc & Hbc).
  exists ta, tc. rewrite Hb in Hb'. injection Hb' as <-.
  repeat split; trivial; lia.
Qed.

Lemma insert_sorted (x : NewsArticle) (l : list NewsArticle) :
  validDate x -> Forall validDate l ->
  StronglySorted notOlder l -> StronglySorted notOlder (insert byDate x l).
Proof.
  intros Hx Hl Hs. induction Hs as [|y l Hs IH Hy]; simpl.
  - constructor; constructor.
  - inversion Hl as [|? ? Vy Vl]; subst.
    destruct (SortCompare_valid _ _ Hx Vy) as (tx & ty & Ex & Ey & Ec).
    destruct (Z.leb_spec (SortCompare byDate x y) 0) as [Hle|Hgt].
    + assert (Hxy : notOlder x y) by (exists tx, ty; repeat split; trivial; lia).
      constructor; [now constructor|].
      constructor; [exact Hxy|].
      eapply Forall_impl; [|exact Hy]. intros z. now apply notOlder_trans.
    + constructor; [now apply IH|].
      rewrite (insert_perm x l). constructor; [|exact Hy].
      exists ty, tx. repeat split; trivial; lia.
Qed.

Lemma sorted_sorted (l : list NewsArticle) :
  Forall validDate l -> StronglySorted notOlder (sorted byDate l).
Proof.
  induction 1 as [|x l Hx Hl IH]; simpl; [constructor|].
  apply insert_sorted; trivial. now rewrite sorted_perm.
Qed.

(** Stability: among the articles of one time value, inserting [x] puts
    it first and moves nothing else. *)
Lemma insert_timeIs (t : Z) (x : NewsArticle) (l : list NewsArticle) :
  validDate x -> Forall validDate l ->
  filter (timeIs t) (insert byDate x l) = filter (timeIs t) (x :: l).
Proof.
  intros Hx Hl. induction Hl as [|y l Vy Vl IH]; [reflexivity|].
  simpl insert.
  destruct (SortCompare_valid _ _ Hx Vy) as (tx & ty & Ex & Ey & Ec).
  destruct (Z.leb_spec (SortCompare byDate x y) 0) as [Hle|Hgt]; [reflexivity|].
  change (filter (timeIs t) (y :: insert byDate x l))
    with (if timeIs t y then y :: filter (timeIs t) (insert byDate x l)
          else filter (timeIs t) (insert byDate x l)).
  rewrite IH. simpl. unfold NewsViewer.timeIs. rewrite Ex, Ey.
  destruct (Z.eqb_spec ty t), (Z.eqb_spec tx t); trivial; lia.
Qed.

Lemma sorted_timeIs (t : Z) (l : list NewsArticle) :
  Forall validDate l ->
  filter (timeIs t) (sorted byDate l) = filter (timeIs t) l.
Proof.
  induction 1 as [|x l Hx Hl IH]; [reflexivity|].
  simpl sorted. rewrite insert_timeIs; trivial.
  - simpl. now rewrite IH.
  - now rewrite sorted_perm.
Qed.

(** **** The query *)

(** The array a query returns, in closed form. *)
Lemma result_eq (store : list NewsArticle) (c q : string) :
  result store c q = sorted byDate (filter (selects c q) store).
Proof.
  unfold NewsViewer.result, query, filteredNews, NewsViewer.selects, Array_sort, Array_filter,
    bind, ret, deref, alloc, assign.
  destruct (String.eqb c "all"), (String.eqb (trim q) ""); simpl.
  - now rewrite filter_all.
  - reflexivity.
  - f_equal. apply filter_ext. intros a. now rewrite andb_true_r.
  - now rewrite filter_filter.
Qed.

(** The contents of [MOCK_NEWS_DATA] after a query, in closed form: the
    unfiltered query sorts the store itself. *)
Lemma storeAfter_eq (store : list NewsArticle) (c q : string) :
  storeAfter store c q =
  if String.eqb c "all" && String.eqb (trim q) ""
  then sorted byDate store else store.
Proof.
  unfold NewsViewer.storeAfter, query, filteredNews, Array_sort, Array_filter,
    bind, ret, deref, alloc, assign.
  destruct (String.eqb c "all"), (String.eqb (trim q) ""); reflexivity.
Qed.

Lemma selects_channel (c q : string) (a : NewsArticle) :
  selects c q a = true <->
  (c = "all" \/ channelId a = c) /\
  (trim q <> "" ->
   occurs (toLowerCase q) (toLowerCase (title a)) \/
   occurs (toLowerCase q) (toLowerCase (content a))).
Proof.
  unfold NewsViewer.selects, channelTest, textTest.
  rewrite andb_true_iff, !orb_true_iff, !String.eqb_eq, !includes_occurs.
  split; intros [Hc Ht]; (split; [exact Hc|]).
  - intros Hq. destruct Ht as [Ht|Ht]; [contradiction | exact Ht].
  - destruct (String.eqb_spec (trim q) "") as [E|N]; auto.
Qed.

(** C1, as the code has it: an article is in the result of a query exactly
    when it is in the store, passes the channel test (the filter is
    ["all"] or equals the article's channel) and, provided the search
    string does not trim to the empty string, has the lower-cased search
    string in its lower-cased title or content; with the filter ["all"] and
    a search string that trims to nothing (the empty one included) the
    result holds all articles of the store.  Lower-casing is the host's,
    whatever it does to the text. *)
Theorem query_selects (store : list NewsArticle) (c q : string) :
  (forall a,
     In a (result store c q) <->
     In a store /\ (c = "all" \/ channelId a = c) /\
     (trim q <> "" ->
      occurs (toLowerCase q) (toLowerCase (title a)) \/
      occurs (toLowerCase q) (toLowerCase (content a))))
  /\ (trim q = "" -> Permutation (result store "all" q) store).
Proof.
  split.
  - intros a. rewrite result_eq.
    rewrite <- selects_channel, <- filter_In.
    split; apply Permutation_in;
      [apply sorted_perm | symmetry; apply sorted_perm].
  - intros Hq. rewrite result_eq, sorted_perm.
    unfold NewsViewer.selects. rewrite Hq. simpl. now rewrite filter_all.
Qed.

(** Whatever the query, the store keeps its elements. *)
Lemma storeAfter_perm (store : list NewsArticle) (c q : string) :
  Permutation (storeAfter store c q) store.
Proof.
  rewrite storeAfter_eq.
  destruct (String.eqb c "all" && String.eqb (trim q) "");
    [apply sorted_perm | reflexivity].
Qed.

(** A query that filters, by channel or by text, works on a fresh array
    and leaves the store as it was. *)
Lemma storeAfter_filtered (store : list NewsArticle) (c q : string) :
  c <> "all" \/ trim q <> "" -> storeAfter store c q = store.
Proof.
  rewrite storeAfter_eq. intros [H|H].
  - apply String.eqb_neq in H. now rewrite H.
  - apply String.eqb_neq in H. now rewrite H, andb_false_r.
Qed.

(** Articles of equal time value keep their order in the store through
    any query, so later queries still see the insertion order of ties. *)
Lemma storeAfter_timeIs (store : list NewsArticle) (c q : string) (t : Z) :
  Forall validDate store ->
  filter (timeIs t) (storeAfter store c q) = filter (timeIs t) store.
Proof.
  intros Hv. rewrite storeAfter_eq.
  destruct (String.eqb c "all" && String.eqb (trim q) "");
    [now apply sorted_timeIs | reflexivity].
Qed.

Lemma filter_comm {A} (f g : A -> bool) (l : list A) :
  filter f (filter g l) = filter g (filter f l).
Proof.
  rewrite !filter_filter. apply filter_ext. intros a. apply andb_comm.
Qed.

Lemma storeAfterAll_keeps (store : list NewsArticle)
    (queries : list (string * string)) :
  Forall validDate store ->
  Forall validDate (storeAfterAll store queries) /\
  forall t,
    filter (timeIs t) (storeAfterAll store queries) =
    filter (timeIs t) store.
Proof.
  revert store. induction queries as [|[c q] queries IH]; intros store Hv.
  - now split.
  - simpl.
    assert (Hv' : Forall validDate (storeAfter store c q)).
    { rewrite Forall_forall in *. intros a Ha. apply Hv.
      revert Ha. apply Permutation_in, storeAfter_perm. }
    destruct (IH _ Hv') as [IH1 IH2]. split; [exact IH1|].
    intros t. now rewrite IH2, storeAfter_timeIs.
Qed.

(** However many queries ran before, articles of equal time value come
    out of a query in the order the store had them at load. *)
Lemma result_stable_after_queries (store : list NewsArticle)
    (queries : list (string * string)) (c q : string) (t : Z) :
  Forall validDate store ->
  filter (timeIs t) (result (storeAfterAll store queries) c q) =
  filter (timeIs t) (filter (selects c q) store).
Proof.
  intros Hv. destruct (storeAfterAll_keeps store queries Hv) as [Hv' Ht].
  rewrite result_eq, sorted_timeIs.
  - now rewrite filter_comm, Ht, filter_comm.
  - rewrite Forall_forall in *. intros a Ha.
    apply filter_In in Ha. now apply Hv'.
Qed.

(** C5: when every date of the store is a valid date, the result of a
    query is sorted by date, most recent first, and the sort is stable:
    for each time value, the articles of the result with that time are
    the selected articles of the store with that time, in the order the
    store has them. *)
Theorem query_sorted_stable (store : list NewsArticle) (c q : string) :
  Forall validDate store ->
  StronglySorted notOlder (result store c q) /\
  forall t,
    filter (timeIs t) (result store c q) =
    filter (timeIs t) (filter (selects c q) store).
Proof.
  intros Hv.
  assert (Hf : Forall validDate (filter (selects c q) store)).
  { rewrite Forall_forall in *. intros a Ha.
    apply filter_In in Ha. now apply Hv. }
  rewrite result_eq. split.
  - now apply sorted_sorted.
  - intros t. now apply sorted_timeIs.
Qed.
End Query.

Lemma sampleStore_valid : Forall (validDate isoDate) sampleStore.
Proof. repeat constructor; discriminate. Qed.

Lemma query_sorted_stable_witness :
  Forall (validDate isoDate) sampleStore /\
  (StronglySorted (notOlder isoDate) (result JS.toLowerCase isoDate sampleStore "cna" "S") /\
   forall t,
     filter (timeIs isoDate t) (result JS.toLowerCase isoDate sampleStore "cna" "S") =
     filter (timeIs isoDate t) (filter (selects JS.toLowerCase "cna" "S") sampleStore)).
Proof.
  split; [exact sampleStore_valid|].
  apply (query_sorted_stable JS.toLowerCase isoDate sampleStore "cna" "S").
  repeat constructor; discriminate.
Defined.

Example result_sample :
  map id (result JS.toLowerCase isoDate sampleStore "all" "election") = [2; 1].
Proof. reflexivity. Qed.

(** C1 as stated fails for a search string of white space: the query
    [" "] trims to nothing, so no text filter runs and the result holds an
    article that has no space in its title or content. *)
Lemma query_blank_counterexample :
  ~ (forall store c q a,
       In a (result JS.toLowerCase isoDate store c q) ->
       (c = "all" \/ channelId a = c) /\
       (occurs (JS.toLowerCase q) (JS.toLowerCase (title a)) \/
        occurs (JS.toLowerCase q) (JS.toLowerCase (content a)))).
Proof.
  intros H.
  pose (a := mkArticle 7 "cna" "Budget" "Approved." "2024-02-02" "").
  assert (Hin : In a (result JS.toLowerCase isoDate [a] "all" " "))
    by (vm_compute; auto).
  destruct (H _ _ _ _ Hin) as [_ [Ht|Hc]].
  - apply includes_occurs in Ht. vm_compute in Ht. discriminate.
  - apply includes_occurs in Hc. vm_compute in Hc. discriminate.
Qed.

(** C2 fails on the code: with the filter ["all"] and an empty search
    string the callback sorts [MOCK_NEWS_DATA] itself, so the store of the
    example is in another order after the query. *)
Theorem unfiltered_query_reorders_store :
  map id (storeAfter JS.toLowerCase isoDate sampleStore "all" "") = [2; 3; 1] /\
  storeAfter JS.toLowerCase isoDate sampleStore "all" "" <> sampleStore.
Proof. split; [reflexivity | discriminate]. Qed.

End NewsViewerFacts.

(* ================================================================== *)
(** ** The highlighter: which queries keep the text *)
(* ================================================================== *)

Module HighlightFacts.
Import JS JSFacts Highlight.

Example render_election :
  renderHighlightedText "Election day" "elect" =
  Returns (Span [Text ""; Mark "Elect"; Text "ion day"]).
Proof. reflexivity. Qed.

Example render_twice :
  renderHighlightedText "abcABC" "bc" =
  Returns (Span [Text "a"; Mark "bc"; Text "A"; Mark "BC"; Text ""]).
Proof. reflexivity. Qed.

Example render_group :
  renderHighlightedText "a" "(a)" =
  Returns (Span [Text ""; Text "a"; Text "a"; Text ""]).
Proof. reflexivity. Qed.

Example render_open_paren :
  renderHighlightedText "a" "(" = Throws RegExpSyntaxError.
Proof. reflexivity. Qed.

Example render_undefined_part :
  renderHighlightedText "a" "a)|(b" = Throws TypeError.
Proof. reflexivity. Qed.

Example render_bar :
  renderHighlightedText "xay" "a|b" =
  Returns (Span [Text "x"; Text "a"; Text "y"]).
Proof. reflexivity. Qed.

(** **** Parsing a query without syntax characters *)

Lemma literal_char (c : ascii) :
  isSyntaxChar c = false ->
  Ascii.eqb c "(" = false /\ Ascii.eqb c ")" = false /\ Ascii.eqb c "|" = false.
Proof.
  unfold isSyntaxChar, syntaxChars. simpl. intros H.
  repeat (apply orb_false_iff in H; destruct H as [? H]).
  auto.
Qed.

Lemma parse_literal (q s : string) (count : nat) (top : frame) (stack : list frame) :
  isLiteral q = true ->
  parse (q ++ s) count top stack =
  parse s count (mkFrame (group top) (alts top) (literal (cur top) q)) stack.
Proof.
  revert top. induction q as [|c q IH]; intros top H; simpl.
  - now destruct top.
  - unfold isLiteral in H. simpl in H. apply andb_true_iff in H as [Hc Hq].
    apply negb_true_iff in Hc.
    destruct (literal_char c Hc) as (-> & -> & ->).
    now rewrite IH.
Qed.

Lemma isLiteral_modelled (q s : string) :
  isLiteral q = true -> allChars isModelled (q ++ s) = allChars isModelled s.
Proof.
  induction q as [|c q IH]; intros H; simpl; [reflexivity|].
  unfold isLiteral in H. simpl in H. apply andb_true_iff in H as [Hc Hq].
  unfold isModelled at 1. rewrite Hc. simpl. now apply IH.
Qed.

Lemma RegExp_literal (query : string) :
  isLiteral query = true ->
  RegExp ("(" ++ query ++ ")") =
  Pattern (RSeq REmpty (RGroup 1 (literal REmpty query))) 1.
Proof.
  intros H. unfold RegExp.
  change ("(" ++ query ++ ")") with (String "(" (query ++ ")")).
  cbn [allChars]. rewrite isLiteral_modelled by exact H.
  cbn. now rewrite parse_literal.
Qed.

Lemma literal_noGroups (q : string) (acc : regex) :
  noGroups acc = true -> noGroups (literal acc q) = true.
Proof.
  revert acc. induction q as [|c q IH]; intros acc H; simpl; [exact H|].
  apply IH. simpl. now rewrite H.
Qed.

(** **** Matching *)

(** A pattern without groups consumes a piece of the input and leaves the
    captures as they are. *)
Lemma matcher_noGroups (r : regex) :
  noGroups r = true ->
  forall input caps k st,
    matcher r input caps k = Some st ->
    exists mid rest, input = mid ++ rest /\ k rest caps = Some st.
Proof.
  induction r as [|c|r1 IH1 r2 IH2|r1 IH1 r2 IH2|n r IH]; simpl; intros Hg input caps k st H.
  - now exists "", input.
  - destruct input as [|x rest]; [discriminate|].
    destruct (Ascii.eqb (upperChar x) (upperChar c)); [|discriminate].
    now exists (String x ""), rest.
  - apply andb_true_iff in Hg as [G1 G2].
    destruct (IH1 G1 _ _ _ _ H) as (m1 & rest1 & -> & H1).
    destruct (IH2 G2 _ _ _ _ H1) as (m2 & rest2 & -> & H2).
    exists (m1 ++ m2), rest2. now rewrite app_assoc.
  - apply andb_true_iff in Hg as [G1 G2].
    destruct (matcher r1 input caps k) as [st'|] eqn:E.
    + injection H as <-. now apply (IH1 G1 _ _ _ _ E).
    + now apply (IH2 G2 _ _ _ _ H).
  - discriminate.
Qed.

Lemma consumed_app (mid rest : string) : consumed (mid ++ rest) rest = mid.
Proof.
  unfold consumed. rewrite length_app, Nat.add_sub. apply substring_prefix.
Qed.

Lemma exec_wrapped (body : regex) :
  noGroups body = true -> oneCapture (RSeq REmpty (RGroup 1 body)).
Proof.
  intros Hg input after caps H. unfold exec in H. simpl in H.
  apply (matcher_noGroups body Hg) in H as (mid & rest & -> & H).
  injection H as <- <-. exists mid. split; [reflexivity|].
  now rewrite consumed_app.
Qed.

(** **** Splitting and rendering *)

Lemma app_cons_inv (c : ascii) (rest' mid after : string) (len : nat) :
  String c rest' = mid ++ after ->
  String.length mid = S len ->
  exists mid', mid = String c mid' /\ rest' = mid' ++ after /\
               String.length mid' = len.
Proof.
  destruct mid as [|d mid']; simpl; intros H L; [discriminate|].
  injection H as -> ->. injection L as L. now exists mid'.
Qed.

(** With one capture per match, the pieces of a split are all defined and
    spell the pending text followed by the text not yet covered. *)
Lemma splitLoop_text (r : regex) :
  oneCapture r ->
  forall rest pending skip covered tail,
    rest = covered ++ tail -> String.length covered = skip ->
    exists pieces,
      splitLoop r 1 pending skip rest = map Some pieces /\
      fold_right append "" pieces = pending ++ tail.
Proof.
  intros Hr. induction rest as [|c rest' IH]; intros pending skip covered tail E L.
  - destruct covered; [|discriminate]. simpl in E, L. subst.
    exists [pending]. simpl. now rewrite !app_nil_r.
  - destruct skip as [|skip'].
    + destruct covered; [|discriminate]. simpl in E. subst tail.
      cbn [splitLoop].
      destruct (exec r (String c rest')) as [[after caps]|] eqn:Ex.
      * destruct (Hr _ _ _ Ex) as (mid & Hmid & Hcaps).
        assert (Hlen : (String.length (String c rest') - String.length after)%nat
                       = String.length mid)
          by (rewrite Hmid, length_app; apply Nat.add_sub).
        rewrite Hcaps, Hlen.
        destruct (String.length mid) as [|len'] eqn:Lm.
        -- destruct mid; [|discriminate]. simpl in Hmid. subst after.
           destruct (IH (String c "") 0%nat "" rest' eq_refl eq_refl)
             as (pieces & -> & Hp).
           destruct (String.eqb pending "") eqn:Ep.
           ++ apply String.eqb_eq in Ep. subst pending.
              now exists pieces.
           ++ exists (pending :: "" :: pieces). split; [reflexivity|].
              simpl. simpl in Hp. now rewrite Hp.
        -- destruct (app_cons_inv _ _ _ _ _ Hmid Lm) as (mid' & -> & Hr' & Lm').
           destruct (IH "" len' mid' after Hr' Lm') as (pieces & -> & Hp).
           exists (pending :: String c mid' :: pieces). split; [reflexivity|].
           simpl. simpl in Hp. rewrite Hp, Hr'. reflexivity.
      * destruct (IH (pending ++ String c "") 0%nat "" rest' eq_refl eq_refl)
          as (pieces & -> & Hp).
        exists pieces. split; [reflexivity|].
        rewrite Hp, app_assoc. reflexivity.
    + destruct covered as [|d covered']; [discriminate|].
      simpl in E, L. injection E as <- E. injection L as L.
      cbn [splitLoop]. now apply (IH pending skip' covered' tail).
Qed.

Lemma split_text (r : regex) (text : string) :
  oneCapture r ->
  exists pieces,
    split text r 1 = map Some pieces /\ fold_right append "" pieces = text.
Proof.
  intros Hr. destruct text as [|c text'].
  - simpl. destruct (exec r ""); [now exists [] | now exists [""]].
  - apply (splitLoop_text r Hr (String c text') "" 0%nat "" (String c text'));
      reflexivity.
Qed.

Lemma mapParts_defined (query : string) (pieces : list string) :
  exists nodes,
    mapParts query (map Some pieces) = Some nodes /\
    map nodeText nodes = pieces.
Proof.
  induction pieces as [|x pieces (nodes & E & M)]; simpl.
  - now exists [].
  - rewrite E. eexists; split; [reflexivity|].
    simpl. rewrite M. now destruct (String.eqb _ _).
Qed.

Lemma shownText_Span (nodes : list node) :
  shownText (Span nodes) = fold_right append "" (map nodeText nodes).
Proof. simpl. induction nodes; simpl; congruence. Qed.

(** For a query without syntax characters the rendering is a span whose
    segments spell the text. *)
Lemma render_literal (text query : string) :
  query <> "" -> isLiteral query = true ->
  exists nodes,
    renderHighlightedText text query = Returns (Span nodes) /\
    shownText (Span nodes) = text.
Proof.
  intros Hq Hl. unfold renderHighlightedText, truthy.
  apply String.eqb_neq in Hq. rewrite Hq. cbn [negb].
  rewrite (RegExp_literal _ Hl).
  destruct (split_text _ text
              (exec_wrapped _ (literal_noGroups query REmpty eq_refl)))
    as (pieces & -> & Hp).
  destruct (mapParts_defined query pieces) as (nodes & -> & Hn).
  exists nodes. split; [reflexivity|].
  now rewrite shownText_Span, Hn.
Qed.

(** An empty query returns the text as it is, with nothing highlighted. *)
Lemma render_empty_query (text : string) :
  renderHighlightedText text "" = Returns (Plain text) /\
  shownText (Plain text) = text /\ highlighted (Plain text) = [].
Proof. repeat split. Qed.

(** C3 fails on the code: the query is pattern source, so the query [(a)]
    gives a pattern with two groups, each match contributes its text
    twice, and the segments of the text [a] spell [aa]; the query [(] is
    no pattern at all and the function throws. *)
Theorem render_group_repeats_text :
  renderHighlightedText "a" "(a)" =
    Returns (Span [Text ""; Text "a"; Text "a"; Text ""]) /\
  shownText (Span [Text ""; Text "a"; Text "a"; Text ""]) = "aa" /\
  renderHighlightedText "a" "(" = Throws RegExpSyntaxError.
Proof. repeat split. Qed.

End HighlightFacts.

(* ================================================================== *)
(** ** The handlers: limits, error classification, order of effects *)
(* ================================================================== *)

Module ApiFacts.
Import JS JSFacts Api.

Lemma app_nil_end {A} (l : list A) : (l ++ [])%list = l.
Proof. apply List.app_nil_r. Qed.

(** **** Runs of the two handlers *)

Lemma File_run (w : World) (req : File.Request) (data mime apiKey : string) :
  File.reachesService w req data mime apiKey ->
  File.handler w req =
  ([ReadApiKey; GenerateContent model File.prompt data mime],
   Normal
     match generateContent w apiKey model File.prompt data mime with
     | inl e => File.onError e
     | inr text => respond 200 (TranscriptBody text)
     end).
Proof.
  intros (Hm & Hd & Td & Hmi & Tm & Hk & Tk).
  unfold File.handler. rewrite Hm.
  destruct (File.body req) as [|fd mt]; [discriminate Hd|].
  cbn [File.fileData File.mimeType] in Hd, Hmi. rewrite Hd, Hmi, Td, Tm, Hk.
  rewrite String.eqb_refl. cbn [negb orb].
  unfold bind, observe, tryCatch, call, ret, throw. rewrite Tk. cbn [negb].
  now destruct (generateContent w apiKey model File.prompt data mime).
Qed.

Lemma Youtube_prefix (w : World) (req : Youtube.Request) (u : string) :
  Youtube.method req = "POST" -> Youtube.url req = Some u ->
  truthy u = true -> validateURL w u = true ->
  Youtube.handler w req =
  (ValidateURL u :: fst (Youtube.attempt w u),
   Normal
     match snd (Youtube.attempt w u) with
     | Normal r => r
     | Throw e => Youtube.onError e
     end).
Proof.
  intros Hm Hu Tu Hv. unfold Youtube.handler. unfold Youtube.url in Hu.
  destruct (Youtube.body req) as [|u']; [discriminate Hu|].
  rewrite Hm, Hu, Tu, String.eqb_refl. cbn [negb].
  unfold bind at 1, observe. rewrite Hv. cbn [negb].
  destruct (Youtube.attempt w u) as [t [r|e]]; unfold tryCatch, ret; cbn.
  - reflexivity.
  - now rewrite app_nil_end.
Qed.

Lemma Youtube_attempt_download (w : World) (req : Youtube.Request) (u : string)
    (info : VideoInfo) (format : Format) :
  Youtube.reachesDownload w req u info format ->
  Youtube.attempt w u =
  match audioStream w u format with
  | inl message =>
      ([GetInfo u; ChooseFormat; Download u format],
       Throw (ErrorObj ("Stream error: " ++ message)))
  | inr audio =>
      match API_KEY w with
      | Some apiKey =>
          if truthy apiKey then
            ([GetInfo u; ChooseFormat; Download u format; ReadApiKey;
              GenerateContent model Youtube.prompt audio "audio/mp4"],
             match generateContent w apiKey model Youtube.prompt audio "audio/mp4" with
             | inl e => Throw e
             | inr text => Normal (respond 200 (TranscriptBody text))
             end)
          else
            ([GetInfo u; ChooseFormat; Download u format; ReadApiKey],
             Throw keyNotSet)
      | None =>
          ([GetInfo u; ChooseFormat; Download u format; ReadApiKey],
           Throw keyNotSet)
      end
  end.
Proof.
  intros (Hm & Hu & Tu & Hv & Hi & Hd & Hc).
  unfold Youtube.attempt, Youtube.streamToBuffer, bind, call, observe, ret, throw.
  rewrite Hi, Hd, Hc.
  destruct (audioStream w u format) as [message|audio]; [reflexivity|].
  destruct (API_KEY w) as [apiKey|]; [|reflexivity].
  destruct (truthy apiKey); cbn [negb]; [|reflexivity].
  now destruct (generateContent w apiKey model Youtube.prompt audio "audio/mp4").
Qed.

Lemma Youtube_run (w : World) (req : Youtube.Request) (u : string)
    (info : VideoInfo) (format : Format) (audio apiKey : string) :
  Youtube.reachesService w req u info format audio apiKey ->
  Youtube.handler w req =
  ([ValidateURL u; GetInfo u; ChooseFormat; Download u format; ReadApiKey;
    GenerateContent model Youtube.prompt audio "audio/mp4"],
   Normal
     match generateContent w apiKey model Youtube.prompt audio "audio/mp4" with
     | inl e => Youtube.onError e
     | inr text => respond 200 (TranscriptBody text)
     end).
Proof.
  intros (Hd & Ha & Hk & Tk).
  pose proof Hd as (Hm & Hu & Tu & Hv & _).
  rewrite (Youtube_prefix w req u Hm Hu Tu Hv).
  rewrite (Youtube_attempt_download w req u info format Hd), Ha, Hk, Tk.
  now destruct (generateContent w apiKey model Youtube.prompt audio "audio/mp4").
Qed.

Example File_key_not_set :
  File.handler (sampleWorld None "600" (inr "text")) sampleFileRequest =
  ([ReadApiKey], Normal (respond 500 (ErrorBody credentialMessage))).
Proof. reflexivity. Qed.

Example File_success :
  File.handler (sampleWorld (Some "k") "600" (inr "text")) sampleFileRequest =
  ([ReadApiKey; GenerateContent model File.prompt "QVVESU8=" "audio/mpeg"],
   Normal (respond 200 (TranscriptBody "text"))).
Proof. reflexivity. Qed.

Example File_wrong_method :
  File.handler (sampleWorld (Some "k") "600" (inr "text"))
    (File.mkRequest "GET" (File.mkBody None None)) =
  ([], Normal methodNotAllowed).
Proof. reflexivity. Qed.

Example Youtube_invalid_url :
  Youtube.handler (sampleWorld (Some "k") "600" (inr "text"))
    (Youtube.mkRequest "POST" (Some "https://example.org/")) =
  ([ValidateURL "https://example.org/"], Normal Youtube.invalidURL).
Proof. reflexivity. Qed.

(** **** The [catch] clauses *)

Lemma File_onError_credential (m : string) :
  occursAnyCase "API key" m ->
  File.onError (ErrorObj m) = respond 500 (ErrorBody credentialMessage).
Proof.
  intros H. apply occursAnyCase_includes in H.
  change (toLowerCase "API key") with "api key" in H.
  unfold File.onError, messageOf. now rewrite H.
Qed.

Lemma Youtube_onError_credential (m : string) :
  occursAnyCase "API key" m ->
  Youtube.onError (ErrorObj m) = respond 500 (ErrorBody credentialMessage).
Proof.
  intros H. apply occursAnyCase_includes in H.
  change (toLowerCase "API key") with "api key" in H.
  unfold Youtube.onError, messageOf. now rewrite H.
Qed.


Lemma Youtube_onError_status (e : thrown) : status (Youtube.onError e) <> 400.
Proof.
  unfold Youtube.onError.
  destruct (_ || _); [discriminate|]. destruct (includes _ _); discriminate.
Qed.

Lemma durationExceeded_eq :
  Youtube.durationExceeded = respond 400 (ErrorBody "影片長度超過 10 分鐘限制。").
Proof. reflexivity. Qed.

(** **** The duration check *)

Lemma Youtube_attempt_over (w : World) (u : string) (info : VideoInfo) :
  getInfo w u = inr info ->
  gt (parseInt (lengthSeconds info)) Youtube.MAX_VIDEO_DURATION_SECONDS = true ->
  Youtube.attempt w u = ([GetInfo u], Normal Youtube.durationExceeded).
Proof.
  intros Hi Hd. unfold Youtube.attempt, bind at 1, call at 1.
  now rewrite Hi, Hd.
Qed.

Lemma Youtube_attempt_within (w : World) (u : string) (info : VideoInfo) :
  getInfo w u = inr info ->
  gt (parseInt (lengthSeconds info)) Youtube.MAX_VIDEO_DURATION_SECONDS = false ->
  exists rest c,
    Youtube.attempt w u = (GetInfo u :: ChooseFormat :: rest, c) /\
    forall r, c = Normal r -> r <> Youtube.durationExceeded.
Proof.
  intros Hi Hd.
  assert (Hna : Youtube.noAudioFormat <> Youtube.durationExceeded)
    by (vm_compute; discriminate).
  assert (Hok : forall text,
             respond 200 (TranscriptBody text) <> Youtube.durationExceeded)
    by (intros text E; apply (f_equal status) in E; discriminate).
  unfold Youtube.attempt, Youtube.streamToBuffer, bind, call, observe, ret, throw.
  rewrite Hi, Hd.
  destruct (chooseFormat w (formats info)) as [e|[f|]];
    [| destruct (audioStream w u f) as [msg|audio];
       [| destruct (API_KEY w) as [k|];
          [ destruct (truthy k); cbn [negb];
            [ destruct (generateContent w k model Youtube.prompt audio "audio/mp4") |]
          |] ]
     |];
    cbn; eexists; eexists; (split; [reflexivity |]);
    intros r E; try discriminate; injection E as <-; auto.
Qed.

(** **** The claims *)

(** C6: in URL mode, a request whose video lasts exactly 600 seconds gets
    past the duration check (the handler goes on to choose a format and its
    response is not the duration error), and one whose video lasts 601
    seconds or more is answered 400 with the duration error after the
    metadata call, without download or AI call. *)
Theorem duration_boundary (w : World) (req : Youtube.Request) (u : string)
    (info : VideoInfo) :
  Youtube.method req = "POST" -> Youtube.url req = Some u ->
  truthy u = true -> validateURL w u = true -> getInfo w u = inr info ->
  (parseInt (lengthSeconds info) = Some 600 ->
   exists rest r,
     Youtube.handler w req =
       (ValidateURL u :: GetInfo u :: ChooseFormat :: rest, Normal r) /\
     r <> Youtube.durationExceeded)
  /\
  (forall d, parseInt (lengthSeconds info) = Some d -> 601 <= d ->
     Youtube.handler w req =
       ([ValidateURL u; GetInfo u],
        Normal (respond 400 (ErrorBody "影片長度超過 10 分鐘限制。")))).
Proof.
  intros Hm Hu Tu Hv Hi.
  rewrite (Youtube_prefix w req u Hm Hu Tu Hv). split.
  - intros Hd.
    destruct (Youtube_attempt_within w u info Hi) as (rest & c & -> & Hc).
    { now rewrite Hd. }
    exists rest. eexists. split; [reflexivity|].
    destruct c as [r|e]; cbn [snd].
    + now apply Hc.
    + intros E. apply (Youtube_onError_status e). now rewrite E.
  - intros d Hd Hle. rewrite <- durationExceeded_eq.
    rewrite (Youtube_attempt_over w u info Hi); [reflexivity|].
    rewrite Hd. apply Z.ltb_lt. unfold Youtube.MAX_VIDEO_DURATION_SECONDS. lia.
Qed.

Lemma duration_boundary_witness :
  (exists rest r,
     Youtube.handler (sampleWorld (Some "k") "600" (inr "text")) sampleUrlRequest =
       (ValidateURL sampleUrl :: GetInfo sampleUrl :: ChooseFormat :: rest, Normal r) /\
     r <> Youtube.durationExceeded)
  /\
  Youtube.handler (sampleWorld (Some "k") "601" (inr "text")) sampleUrlRequest =
    ([ValidateURL sampleUrl; GetInfo sampleUrl],
     Normal (respond 400 (ErrorBody "影片長度超過 10 分鐘限制。"))).
Proof.
  split.
  - refine (proj1 (duration_boundary (sampleWorld (Some "k") "600" (inr "text"))
              sampleUrlRequest sampleUrl (mkInfo "600" [sampleFormat])
              eq_refl eq_refl eq_refl eq_refl eq_refl) eq_refl).
  - refine (proj2 (duration_boundary (sampleWorld (Some "k") "601" (inr "text"))
              sampleUrlRequest sampleUrl (mkInfo "601" [sampleFormat])
              eq_refl eq_refl eq_refl eq_refl eq_refl) 601 eq_refl _).
    lia.
Defined.

(** C7: on both endpoints, when the call to the AI service fails with an
    error whose message contains "API key" in some casing, the handler
    answers 500 with the fixed credential message, whatever else the
    message says. *)
Theorem api_key_error_is_credential (w : World) (m : string) :
  occursAnyCase "API key" m ->
  (forall req data mime apiKey,
     File.reachesService w req data mime apiKey ->
     generateContent w apiKey model File.prompt data mime = inl (ErrorObj m) ->
     File.handler w req =
       ([ReadApiKey; GenerateContent model File.prompt data mime],
        Normal (respond 500 (ErrorBody credentialMessage))))
  /\
  (forall req u info format audio apiKey,
     Youtube.reachesService w req u info format audio apiKey ->
     generateContent w apiKey model Youtube.prompt audio "audio/mp4"
       = inl (ErrorObj m) ->
     Youtube.handler w req =
       ([ValidateURL u; GetInfo u; ChooseFormat; Download u format; ReadApiKey;
         GenerateContent model Youtube.prompt audio "audio/mp4"],
        Normal (respond 500 (ErrorBody credentialMessage)))).
Proof.
  intros H. split.
  - intros req data mime apiKey Hr Hf.
    rewrite (File_run w req data mime apiKey Hr), Hf.
    now rewrite File_onError_credential.
  - intros req u info format audio apiKey Hr Hf.
    rewrite (Youtube_run w req u info format audio apiKey Hr), Hf.
    now rewrite Youtube_onError_credential.
Qed.

Lemma sample_reaches_file (answer : thrown + string) :
  File.reachesService (sampleWorld (Some "k") "600" answer) sampleFileRequest
    "QVVESU8=" "audio/mpeg" "k".
Proof. repeat split. Qed.

Lemma sample_reaches_youtube (answer : thrown + string) :
  Youtube.reachesService (sampleWorld (Some "k") "600" answer) sampleUrlRequest
    sampleUrl (mkInfo "600" [sampleFormat]) sampleFormat "QVVESU8=" "k".
Proof. repeat split. Qed.

Lemma occurs_by_includes (needle s : string) :
  includes (toLowerCase s) (toLowerCase needle) = true -> occursAnyCase needle s.
Proof. apply occursAnyCase_includes. Qed.

Lemma api_key_error_is_credential_witness :
  occursAnyCase "API key" "Invalid Api Key supplied" /\
  snd (File.handler
         (sampleWorld (Some "k") "600" (inl (ErrorObj "Invalid Api Key supplied")))
         sampleFileRequest)
    = Normal (respond 500 (ErrorBody credentialMessage)) /\
  snd (Youtube.handler
         (sampleWorld (Some "k") "600" (inl (ErrorObj "Invalid Api Key supplied")))
         sampleUrlRequest)
    = Normal (respond 500 (ErrorBody credentialMessage)).
Proof.
  assert (H : occursAnyCase "API key" "Invalid Api Key supplied")
    by (apply occurs_by_includes; reflexivity).
  split; [exact H|].
  destruct (api_key_error_is_credential
              (sampleWorld (Some "k") "600" (inl (ErrorObj "Invalid Api Key supplied")))
              "Invalid Api Key supplied" H) as [HF HY].
  split.
  - rewrite (HF sampleFileRequest _ _ _ (sample_reaches_file _) eq_refl).
    reflexivity.
  - rewrite (HY sampleUrlRequest _ _ _ _ _ (sample_reaches_youtube _) eq_refl).
    reflexivity.
Defined.


(** A second way C8 as stated fails: the credential rule is tried first. *)
Example too_large_but_api_key :
  snd (File.handler
         (sampleWorld (Some "k") "600"
            (inl (ErrorObj "Request Entity Too Large (API key abc)")))
         sampleFileRequest)
    = Normal (respond 500 (ErrorBody credentialMessage)).
Proof. reflexivity. Qed.




(** **** Order of effects on the URL endpoint *)

Lemma keyReadsFollowDownload_sound (t : list Event) (seen : bool) :
  keyReadsFollowDownload seen t = true ->
  forall pre post,
    t = (pre ++ ReadApiKey :: post)%list ->
    seen = true \/ exists u f, In (Download u f) pre.
Proof.
  revert seen. induction t as [|ev t IH]; intros seen H pre post E.
  - destruct pre; discriminate.
  - destruct pre as [|ev' pre]; simpl in E; injection E as -> E.
    + simpl in H. apply andb_true_iff in H as [-> _]. now left.
    + destruct ev'; simpl in H;
        try (destruct (IH _ H _ _ E) as [->|(u' & f' & Hin)];
             [now left | right; exists u', f'; now right]).
      * destruct (IH _ H _ _ E) as [_|(u' & f' & Hin)].
        -- right. exists url, format. now left.
        -- right. exists u', f'. now right.
      * apply andb_true_iff in H as [-> _]. now left.
Qed.

Lemma downloadBeforeKey_check (t : list Event) :
  keyReadsFollowDownload false t = true -> downloadBeforeKey t.
Proof.
  intros H pre post E.
  destruct (keyReadsFollowDownload_sound t false H pre post E) as [F|D];
    [discriminate | exact D].
Qed.

(** On every run of the URL handler, whatever the request and the world,
    the key is read only after a download. *)
Lemma Youtube_downloadBeforeKey (w : World) (req : Youtube.Request) :
  downloadBeforeKey (fst (Youtube.handler w req)).
Proof.
  apply downloadBeforeKey_check.
  unfold Youtube.handler, Youtube.attempt, Youtube.streamToBuffer,
    tryCatch, bind, call, observe, ret, throw.
  destruct (negb (Youtube.method req =? "POST")%string); [reflexivity|].
  destruct (Youtube.body req) as [|[u|]]; [reflexivity| |reflexivity].
  destruct (negb (truthy u)); [reflexivity|].
  destruct (validateURL w u); cbn [negb]; [|reflexivity].
  destruct (getInfo w u) as [e|info]; [reflexivity|].
  destruct (gt _ _); [reflexivity|].
  destruct (chooseFormat w (formats info)) as [e|[f|]]; [reflexivity| |reflexivity].
  destruct (audioStream w u f) as [msg|audio]; [reflexivity|].
  destruct (API_KEY w) as [k|]; [|reflexivity].
  destruct (truthy k); cbn [negb]; [|reflexivity].
  now destruct (generateContent w k model Youtube.prompt audio "audio/mp4").
Qed.

(** C10: on the URL endpoint, for a request with a URL the library accepts,
    a duration not over 600 seconds and an audio format, the run starts
    with the URL check, the metadata call, the choice of format and the
    download, and reads the key only after a download; when the download
    succeeds and the key is absent (unset or empty), the run is exactly
    those four steps and the reading of the key, and the answer is the 500
    credential error. *)
Theorem download_precedes_key_check (w : World) (req : Youtube.Request)
    (u : string) (info : VideoInfo) (format : Format) :
  Youtube.reachesDownload w req u info format ->
  (exists rest r,
     Youtube.handler w req =
       (([ValidateURL u; GetInfo u; ChooseFormat; Download u format] ++ rest)%list,
        Normal r))
  /\ downloadBeforeKey (fst (Youtube.handler w req))
  /\ (forall audio,
        audioStream w u format = inr audio -> falsy (API_KEY w) = true ->
        Youtube.handler w req =
          ([ValidateURL u; GetInfo u; ChooseFormat; Download u format; ReadApiKey],
           Normal (respond 500 (ErrorBody credentialMessage)))).
Proof.
  intros Hd. pose proof Hd as (Hm & Hu & Tu & Hv & _).
  split; [|split].
  - rewrite (Youtube_prefix w req u Hm Hu Tu Hv).
    rewrite (Youtube_attempt_download w req u info format Hd).
    destruct (audioStream w u format) as [msg|audio];
      [| destruct (API_KEY w) as [k|]; [destruct (truthy k)|] ];
      cbn [fst snd]; eexists; eexists; reflexivity.
  - apply Youtube_downloadBeforeKey.
  - intros audio Ha Hk.
    rewrite (Youtube_prefix w req u Hm Hu Tu Hv).
    rewrite (Youtube_attempt_download w req u info format Hd), Ha.
    unfold falsy in Hk. destruct (API_KEY w) as [k|].
    + apply negb_true_iff in Hk. rewrite Hk. reflexivity.
    + reflexivity.
Qed.

Lemma sample_reaches_download (key : option string) (answer : thrown + string) :
  Youtube.reachesDownload (sampleWorld key "600" answer) sampleUrlRequest
    sampleUrl (mkInfo "600" [sampleFormat]) sampleFormat.
Proof. repeat split. Qed.

Lemma download_precedes_key_check_witness :
  Youtube.handler (sampleWorld None "600" (inr "text")) sampleUrlRequest =
    ([ValidateURL sampleUrl; GetInfo sampleUrl; ChooseFormat;
      Download sampleUrl sampleFormat; ReadApiKey],
     Normal (respond 500 (ErrorBody credentialMessage))).
Proof.
  exact (proj2 (proj2 (download_precedes_key_check
                         (sampleWorld None "600" (inr "text")) sampleUrlRequest
                         sampleUrl (mkInfo "600" [sampleFormat]) sampleFormat
                         (sample_reaches_download None (inr "text"))))
           "QVVESU8=" eq_refl eq_refl).
Defined.

End ApiFacts.

(* ================================================================== *)
(** ** The component: the upload ceiling and the change of input mode *)
(* ================================================================== *)

Module TranscriberFacts.
Import JS JSFacts Transcriber.

Lemma MAX_UPLOAD_BYTES_eq : Proxy.MAX_UPLOAD_BYTES = 4718592.
Proof. reflexivity. Qed.

(** C4, as the code has it: in the version of the component that posts to
    the backend, submitting in file mode a file whose size is over
    4.5 * 1024 * 1024 bytes makes no request at all and leaves the
    component with the size error, no transcript and the loading flag
    down. *)
Theorem oversized_file_rejected_locally (w : Proxy.World) (s : Proxy.State)
    (f : File) :
  Proxy.inputType s = InputFile -> Proxy.file s = Some f ->
  4718592 < size f ->
  Proxy.handleTranscribe w s =
  ([], Proxy.mkState InputFile (Proxy.urlValue s) (Some f) (Proxy.fileName s)
         false "" "轉換失敗：檔案大小超過 4.5MB 限制，無法上傳。" false).
Proof.
  destruct s as [it uv fl fn ld tr er cp]. cbn. intros -> -> Hsize.
  unfold Proxy.handleTranscribe, Proxy.attempt, Proxy.request. cbn.
  rewrite ?MAX_UPLOAD_BYTES_eq.
  apply Z.ltb_lt in Hsize. rewrite Hsize. reflexivity.
Qed.

Lemma oversized_file_rejected_locally_witness :
  Proxy.handleTranscribe sampleProxyWorld
    (Proxy.mkState InputFile "" (Some bigFile) "talk.mp4" false "" "" false) =
  ([], Proxy.mkState InputFile "" (Some bigFile) "talk.mp4"
         false "" "轉換失敗：檔案大小超過 4.5MB 限制，無法上傳。" false).
Proof.
  apply (oversized_file_rejected_locally sampleProxyWorld
           (Proxy.mkState InputFile "" (Some bigFile) "talk.mp4" false "" "" false)
           bigFile eq_refl eq_refl).
  reflexivity.
Defined.

(** A file at the ceiling is sent. *)
Example file_at_ceiling_is_sent :
  fst (Proxy.handleTranscribe sampleProxyWorld
         (Proxy.mkState InputFile "" (Some (mkFile "a.mp3" 4718592 "audio/mpeg"))
            "a.mp3" false "" "" false)) =
  [Proxy.Fetch "/api/transcribe-file" (Proxy.FilePayload "QUJD" "audio/mpeg")].
Proof. reflexivity. Qed.

(** C4 as stated fails for the version of the component that calls the AI
    service from the browser: it has no size check, and a file of 5 MB is
    read and sent to the service. *)
Lemma direct_version_sends_oversized_file :
  ~ (forall (w : Direct.World) (s : Direct.State) (f : File),
       Direct.inputType s = InputFile -> Direct.file s = Some f ->
       4718592 < size f ->
       fst (Direct.handleTranscribe w s) = []).
Proof.
  intros H.
  specialize (H sampleDirectWorld
                (Direct.mkState InputFile "" (Some bigFile) "talk.mp4" false "" "")
                bigFile eq_refl eq_refl eq_refl).
  discriminate H.
Qed.

Example direct_version_run :
  Direct.handleTranscribe sampleDirectWorld
    (Direct.mkState InputFile "" (Some bigFile) "talk.mp4" false "" "") =
  ([Direct.GenerateContent Api.model Direct.prompt "QUJD" "video/mp4"],
   Direct.mkState InputFile "" (Some bigFile) "talk.mp4" false "text" "").
Proof. reflexivity. Qed.

(** C9: in both versions of the component, changing the input mode sets
    the selector to the new mode and puts the URL text, the selected file,
    the file name, the transcript and the error (and the copied flag, where
    there is one) back to their initial, empty values; the loading flag is
    the only field carried over. *)
Theorem type_change_resets (t : InputType) :
  (forall s,
     Proxy.handleTypeChange t s =
       Proxy.mkState t "" None "" (Proxy.isLoading s) "" "" false
     /\ Proxy.handleTypeChange t s =
        Proxy.setIsLoading (Proxy.isLoading s) (Proxy.setInputType t Proxy.initial))
  /\
  (forall s,
     Direct.handleTypeChange t s =
       Direct.mkState t "" None "" (Direct.isLoading s) "" ""
     /\ Direct.handleTypeChange t s =
        Direct.setIsLoading (Direct.isLoading s) (Direct.setInputType t Direct.initial)).
Proof. split; intros s; split; reflexivity. Qed.

(** A change of mode discards what the previous change left: two changes
    in a row are one. *)
Lemma type_change_twice (t t' : InputType) (s : Proxy.State) :
  Proxy.handleTypeChange t' (Proxy.handleTypeChange t s) =
  Proxy.handleTypeChange t' s.
Proof. reflexivity. Qed.

End TranscriberFacts.

(* ================================================================== *)
(** ** More on the article query and its view *)
(* ================================================================== *)

Module NewsViewExtra.
Import JS JSFacts NewsViewer NewsViewerFacts NewsView.

Section Query.
Variable toLowerCase : string -> string.
Variable Date_getTime : string -> option Z.

Local Abbreviation byDate := (byDateDesc Date_getTime).
Local Abbreviation selects := (NewsViewer.selects toLowerCase).
Local Abbreviation result := (NewsViewer.result toLowerCase Date_getTime).
Local Abbreviation storeAfter := (NewsViewer.storeAfter toLowerCase Date_getTime).
Local Abbreviation storeAfterAll :=
  (NewsViewer.storeAfterAll toLowerCase Date_getTime).
Local Abbreviation validDate := (NewsViewer.validDate Date_getTime).
Local Abbreviation notOlder := (NewsViewer.notOlder Date_getTime).
Local Abbreviation timeIs := (NewsViewer.timeIs Date_getTime).

Lemma timeIs_own (a : NewsArticle) :
  validDate a -> exists t, Date_getTime (date a) = Some t /\ timeIs t a = true.
Proof.
  unfold NewsViewer.validDate, NewsViewer.timeIs. intros H.
  destruct (Date_getTime (date a)) as [t|]; [|contradiction].
  exists t. split; [reflexivity | apply Z.eqb_refl].
Qed.

Lemma timeIs_time (t : Z) (a : NewsArticle) :
  timeIs t a = true -> Date_getTime (date a) = Some t.
Proof.
  unfold NewsViewer.timeIs.
  destruct (Date_getTime (date a)) as [u|]; [|discriminate].
  intros H. apply Z.eqb_eq in H. now subst.
Qed.

(** The head of a sorted list is not older than any element a filter finds. *)
Lemma head_notOlder (a : NewsArticle) (l : list NewsArticle) (b : NewsArticle)
    (ta tb : Z) :
  StronglySorted notOlder (a :: l) -> In b (a :: l) ->
  Date_getTime (date a) = Some ta -> Date_getTime (date b) = Some tb ->
  tb <= ta.
Proof.
  intros Hs [<-|Hin] Ha Hb.
  - rewrite Ha in Hb. injection Hb as <-. lia.
  - apply StronglySorted_inv in Hs as [_ Hall].
    rewrite Forall_forall in Hall.
    destruct (Hall b Hin) as (ta' & tb' & Ea & Eb & Hle).
    rewrite Ha in Ea. rewrite Hb in Eb.
    injection Ea as <-. injection Eb as <-. exact Hle.
Qed.

(** Two date-sorted lists with the same articles, in the same order, at
    each time value are the same list. *)
Lemma sorted_unique (l1 : list NewsArticle) :
  forall l2,
    Forall validDate l1 -> Forall validDate l2 ->
    StronglySorted notOlder l1 -> StronglySorted notOlder l2 ->
    (forall t, filter (timeIs t) l1 = filter (timeIs t) l2) ->
    l1 = l2.
Proof.
  induction l1 as [|a l1 IH]; intros l2 V1 V2 S1 S2 H.
  - destruct l2 as [|b l2]; [reflexivity|]. exfalso.
    inversion V2 as [|? ? Vb _]; subst.
    destruct (timeIs_own b Vb) as (tb & _ & Tb).
    specialize (H tb). simpl in H. rewrite Tb in H. discriminate.
  - inversion V1 as [|? ? Va V1']; subst.
    destruct (timeIs_own a Va) as (ta & Ea & Ta).
    destruct l2 as [|b l2].
    { specialize (H ta). simpl in H. rewrite Ta in H. discriminate. }
    inversion V2 as [|? ? Vb V2']; subst.
    destruct (timeIs_own b Vb) as (tb & Eb & Tb).
    assert (Hab : tb <= ta).
    { apply (head_notOlder a l1 b ta tb S1); trivial.
      apply (proj1 (filter_In (timeIs tb) b (a :: l1))).
      rewrite (H tb). simpl. rewrite Tb. now left. }
    assert (Hba : ta <= tb).
    { apply (head_notOlder b l2 a tb ta S2); trivial.
      apply (proj1 (filter_In (timeIs ta) a (b :: l2))).
      rewrite <- (H ta). simpl. rewrite Ta. now left. }
    assert (E : ta = tb) by lia. subst tb.
    pose proof (H ta) as Hta. simpl in Hta. rewrite Ta, Tb in Hta.
    injection Hta as <- Hta. f_equal.
    apply StronglySorted_inv in S1 as [S1 _].
    apply StronglySorted_inv in S2 as [S2 _].
    apply IH; trivial.
    intros t. destruct (Z.eq_dec t ta) as [->|Hne]; [exact Hta|].
    specialize (H t). simpl in H.
    assert (F : timeIs t a = false).
    { destruct (timeIs t a) eqn:E; [|reflexivity].
      apply timeIs_time in E. rewrite Ea in E. injection E as E. congruence. }
    now rewrite F in H.
Qed.

Lemma filter_valid (f : NewsArticle -> bool) (l : list NewsArticle) :
  Forall validDate l -> Forall validDate (filter f l).
Proof.
  rewrite !Forall_forall. intros H a Ha. apply filter_In in Ha. now apply H.
Qed.

Lemma sorted_valid (l : list NewsArticle) :
  Forall validDate l -> Forall validDate (sorted byDate l).
Proof.
  rewrite !Forall_forall. intros H a Ha. apply H.
  revert Ha. apply Permutation_in, sorted_perm.
Qed.

(** X1: when every date of the store is valid, what a query returns does
    not depend on the queries that ran before it, although some of them
    reorder the store: after any series of queries, a query returns the list
    it returns on the store as loaded. *)
Theorem result_after_queries (store : list NewsArticle)
    (queries : list (string * string)) (c q : string) :
  Forall validDate store ->
  result (storeAfterAll store queries) c q = result store c q.
Proof.
  intros Hv.
  destruct (storeAfterAll_keeps toLowerCase Date_getTime store queries Hv) as [Hv' _].
  apply sorted_unique.
  - rewrite result_eq. now apply sorted_valid, filter_valid.
  - rewrite result_eq. now apply sorted_valid, filter_valid.
  - rewrite result_eq. now apply sorted_sorted, filter_valid.
  - rewrite result_eq. now apply sorted_sorted, filter_valid.
  - intros t. rewrite (result_stable_after_queries toLowerCase Date_getTime store queries c q t Hv).
    rewrite result_eq. now rewrite sorted_timeIs by now apply filter_valid.
Qed.

Lemma sorted_again (store : list NewsArticle) :
  Forall validDate store ->
  sorted byDate (sorted byDate store) = sorted byDate store.
Proof.
  intros Hv. apply sorted_unique.
  - now apply sorted_valid, sorted_valid.
  - now apply sorted_valid.
  - now apply sorted_sorted, sorted_valid.
  - now apply sorted_sorted.
  - intros t. now rewrite sorted_timeIs by now apply sorted_valid.
Qed.

Lemma sorted_store_stays (store : list NewsArticle) (more : list (string * string)) :
  Forall validDate store ->
  storeAfterAll (sorted byDate store) more = sorted byDate store.
Proof.
  intros Hv. induction more as [|[c q] more IH]; [reflexivity|]. simpl.
  rewrite storeAfter_eq.
  destruct (String.eqb c "all" && String.eqb (trim q) ""); [|exact IH].
  rewrite (sorted_again store Hv). exact IH.
Qed.

(** X2: when every date of the store is valid, the store is the list as
    loaded as long as every query so far filtered by channel or by text,
    and it is that list sorted by date from the first unfiltered query on:
    once sorted, no series of queries changes it again. *)
Theorem store_loaded_or_sorted (store : list NewsArticle)
    (queries : list (string * string)) :
  Forall validDate store ->
  storeAfterAll store queries =
    (if existsb unfiltered queries then sorted byDate store else store)
  /\ (forall more,
        storeAfterAll (sorted byDate store) more = sorted byDate store).
Proof.
  intros Hv. split; [|intros more; now apply sorted_store_stays].
  induction queries as [|[c q] queries IH]; [reflexivity|].
  simpl. rewrite storeAfter_eq. unfold unfiltered at 1. simpl.
  destruct (String.eqb c "all" && String.eqb (trim q) ""); simpl.
  - now apply sorted_store_stays.
  - exact IH.
Qed.

Lemma NoDup_map_filter {A B} (g : A -> B) (f : A -> bool) (l : list A) :
  NoDup (map g l) -> NoDup (map g (filter f l)).
Proof.
  induction l as [|a l IH]; simpl; intros H; [constructor|].
  inversion H as [|? ? Hn Hd]; subst.
  destruct (f a); simpl; [|now apply IH].
  constructor; [|now apply IH].
  intros Hin. apply Hn. apply in_map_iff in Hin as (x & <- & Hx).
  apply filter_In in Hx as [Hx _]. now apply in_map.
Qed.

Lemma filter_length_le {A} (f : A -> bool) (l : list A) :
  (List.length (filter f l) <= List.length l)%nat.
Proof.
  induction l as [|a l IH]; simpl; [lia|]. destruct (f a); simpl; lia.
Qed.

(** X3: a store whose article ids are all different gives results whose
    ids are all different (the cards are keyed by id), and a result is never
    longer than the store. *)
Theorem result_ids_unique (store : list NewsArticle) (c q : string) :
  NoDup (map NewsViewer.id store) ->
  NoDup (map NewsViewer.id (result store c q)) /\
  (List.length (result store c q) <= List.length store)%nat.
Proof.
  intros H. rewrite result_eq. split.
  - apply (Permutation_NoDup
             (l := map NewsViewer.id (filter (selects c q) store))).
    + apply Permutation_map. symmetry. apply sorted_perm.
    + now apply NoDup_map_filter.
  - rewrite (Permutation_length (sorted_perm Date_getTime _)).
    apply filter_length_le.
Qed.

(** X4: the notice that no news was found replaces the grid exactly when
    no article of the store passes the channel test together with the text
    test -- the lower-cased search string occurring in the lower-cased title
    or content, a test that counts only for a search string that does not
    trim to nothing.  Lower-casing is the host's. *)
Theorem notice_iff_nothing_selected (store : list NewsArticle) (c q : string) :
  newsGrid (result store c q) = NoNews <->
  forall a, In a store ->
    ~ ((c = "all" \/ channelId a = c) /\
       (trim q <> "" ->
        occurs (toLowerCase q) (toLowerCase (title a)) \/
        occurs (toLowerCase q) (toLowerCase (content a)))).
Proof.
  unfold newsGrid. rewrite result_eq.
  rewrite (Permutation_length (sorted_perm Date_getTime _)).
  split.
  - intros H a Ha Hsel. apply selects_channel in Hsel.
    assert (Hin : In a (filter (selects c q) store)) by (apply filter_In; auto).
    destruct (filter (selects c q) store); [contradiction | discriminate].
  - intros H. destruct (filter (selects c q) store) as [|a l] eqn:E; [reflexivity|].
    exfalso. assert (Hin : In a (filter (selects c q) store)) by (rewrite E; now left).
    apply filter_In in Hin as [Hin Hsel]. apply (H a Hin).
    now apply selects_channel.
Qed.

End Query.

Lemma result_after_queries_witness :
  Forall (validDate isoDate) sampleStore /\
  result JS.toLowerCase isoDate
    (storeAfterAll JS.toLowerCase isoDate sampleStore [("all", ""); ("cna", "x")])
    "all" "o"
  = result JS.toLowerCase isoDate sampleStore "all" "o".
Proof.
  split; [exact sampleStore_valid|].
  apply (result_after_queries JS.toLowerCase isoDate sampleStore
           [("all", ""); ("cna", "x")]).
  repeat constructor; discriminate.
Defined.

Lemma store_loaded_or_sorted_witness :
  storeAfterAll JS.toLowerCase isoDate sampleStore
    [("cna", ""); ("all", " "); ("all", "")]
  = sorted (byDateDesc isoDate) sampleStore.
Proof.
  refine (proj1 (store_loaded_or_sorted JS.toLowerCase isoDate sampleStore
                   [("cna", ""); ("all", " "); ("all", "")] _)).
  repeat constructor; discriminate.
Defined.

Lemma result_ids_unique_witness :
  NoDup (map NewsViewer.id (result JS.toLowerCase isoDate sampleStore "all" "e")) /\
  (List.length (result JS.toLowerCase isoDate sampleStore "all" "e")
   <= List.length sampleStore)%nat.
Proof.
  apply (result_ids_unique JS.toLowerCase isoDate sampleStore "all" "e").
  repeat constructor; simpl; intuition discriminate.
Defined.

Lemma find_first {A} (f : A -> bool) (before : list A) (x : A) (after : list A) :
  (forall y, In y before -> f y = false) -> f x = true ->
  find f (before ++ x :: after) = Some x.
Proof.
  induction before as [|b before IH]; simpl; intros Hb Hx.
  - now rewrite Hx.
  - rewrite (Hb b (or_introl eq_refl)). apply IH; auto.
Qed.

(** X5: the label of a channel is never empty.  An id that no channel has
    gets the label for an unknown source; otherwise the first channel with
    that id decides: its name when the name is not empty, the label for an
    unknown source when it is, whatever channels with the same id come
    later. *)
Theorem channel_label (channels : list NewsChannel) (i : string) :
  truthy (getChannelName channels i) = true /\
  ((forall ch, In ch channels -> id ch <> i) ->
   getChannelName channels i = unknownSource) /\
  (forall before ch after,
     channels = (before ++ ch :: after)%list ->
     (forall x, In x before -> id x <> i) -> id ch = i ->
     getChannelName channels i =
       if truthy (name ch) then name ch else unknownSource).
Proof.
  split; [|split].
  - unfold getChannelName.
    destruct (find (fun ch => String.eqb (id ch) i) channels) as [ch|];
      [|reflexivity].
    destruct (truthy (name ch)) eqn:T; [exact T | reflexivity].
  - intros H. unfold getChannelName.
    destruct (find (fun ch => String.eqb (id ch) i) channels) as [ch|] eqn:E;
      [|reflexivity].
    apply find_some in E as [Hin Hid]. apply String.eqb_eq in Hid.
    exfalso. now apply (H ch Hin).
  - intros before ch after -> Hb Hid. unfold getChannelName.
    rewrite (find_first (fun ch => String.eqb (id ch) i) before ch after).
    + reflexivity.
    + intros y Hy. apply String.eqb_neq. now apply Hb.
    + now apply String.eqb_eq.
Qed.

Example channel_label_first_empty :
  getChannelName [mkChannel "a" ""; mkChannel "a" "B"] "a" = unknownSource.
Proof. reflexivity. Qed.

End NewsViewExtra.

(* ================================================================== *)
(** ** More on the highlighter *)
(* ================================================================== *)

Module HighlightExtra.
Import JS JSFacts Highlight HighlightFacts HighlightMore.

(** **** Case folding, unit by unit *)

Lemma allAscii_complete (a : ascii) : In a allAscii.
Proof.
  unfold allAscii. apply in_map_iff. exists (nat_of_ascii a). split.
  - apply ascii_nat_embedding.
  - apply in_seq. pose proof (nat_ascii_bounded a). lia.
Qed.

Lemma fold_agree (x c : ascii) :
  Ascii.eqb (upperChar x) (upperChar c) = Ascii.eqb (lowerChar x) (lowerChar c).
Proof.
  assert (H : forallb (fun x => forallb (fun c =>
                Bool.eqb (Ascii.eqb (upperChar x) (upperChar c))
                         (Ascii.eqb (lowerChar x) (lowerChar c))) allAscii)
                allAscii = true) by (vm_compute; reflexivity).
  rewrite forallb_forall in H. specialize (H x (allAscii_complete x)).
  rewrite forallb_forall in H. specialize (H c (allAscii_complete c)).
  now apply Bool.eqb_prop in H.
Qed.

(** **** The pattern of a literal query *)

Lemma matcher_ext (r : regex) :
  forall input caps k1 k2,
    (forall rest caps', k1 rest caps' = k2 rest caps') ->
    matcher r input caps k1 = matcher r input caps k2.
Proof.
  induction r as [|c|r1 IH1 r2 IH2|r1 IH1 r2 IH2|n r IH]; simpl; intros input caps k1 k2 H.
  - apply H.
  - destruct input as [|x rest]; [reflexivity|].
    destruct (Ascii.eqb _ _); [apply H | reflexivity].
  - apply IH1. intros rest caps'. now apply IH2.
  - rewrite (IH1 input caps k1 k2 H), (IH2 input caps k1 k2 H). reflexivity.
  - apply IH. intros rest caps'. apply H.
Qed.

Lemma matcher_literal (q : string) :
  forall acc input caps k,
    matcher (literal acc q) input caps k =
    matcher acc input caps
      (fun rest caps' =>
         match matchLiteral q rest with
         | Some rest' => k rest' caps'
         | None => None
         end).
Proof.
  induction q as [|c q IH]; intros acc input caps k; simpl.
  - now apply matcher_ext.
  - rewrite IH. simpl. apply matcher_ext. intros rest caps'.
    destruct rest as [|x rest]; [reflexivity|].
    now destruct (Ascii.eqb _ _).
Qed.

Lemma exec_literal (q input : string) :
  exec (RSeq REmpty (RGroup 1 (literal REmpty q))) input =
  match matchLiteral q input with
  | Some rest => Some (rest, [(1%nat, consumed input rest)])
  | None => None
  end.
Proof. unfold exec. simpl. now rewrite matcher_literal. Qed.

Lemma matchLiteral_spec (q : string) :
  forall input rest,
    matchLiteral q input = Some rest <->
    exists mid, input = mid ++ rest /\ toLowerCase mid = toLowerCase q.
Proof.
  induction q as [|c q IH]; intros input rest; simpl.
  - split.
    + intros E. injection E as <-. now exists "".
    + intros (mid & -> & E). destruct mid; [reflexivity | discriminate].
  - destruct input as [|x input'].
    + split; [discriminate|].
      intros (mid & E & L). destruct mid; discriminate.
    + rewrite fold_agree. split.
      * destruct (Ascii.eqb_spec (lowerChar x) (lowerChar c)) as [Ec|]; [|discriminate].
        intros H. apply IH in H as (mid & -> & L).
        exists (String x mid). simpl. now rewrite Ec, L.
      * intros (mid & E & L). destruct mid as [|y mid]; [discriminate|].
        simpl in E, L. injection E as <- ->. injection L as -> L.
        rewrite Ascii.eqb_refl. apply IH. now exists mid.
Qed.

Lemma toLowerCase_empty (s : string) : toLowerCase s = "" -> s = "".
Proof. destruct s; [reflexivity | discriminate]. Qed.

(** **** A match is found wherever the query occurs *)

Lemma splitLoop_finds (q : string) :
  q <> "" ->
  forall rest pending skip covered tail,
    rest = covered ++ tail -> String.length covered = skip ->
    occursAnyCase q tail ->
    exists mid,
      In (Some mid)
         (splitLoop (RSeq REmpty (RGroup 1 (literal REmpty q))) 1 pending skip rest)
      /\ toLowerCase mid = toLowerCase q.
Proof.
  intros Hq. induction rest as [|c rest' IH]; intros pending skip covered tail E L Ho.
  - destruct covered; [|discriminate]. simpl in E. subst tail.
    destruct Ho as (pre & mid & post & E & Hm). exfalso. apply Hq.
    destruct pre; [|discriminate]. destruct mid; [|discriminate].
    symmetry in Hm. now apply toLowerCase_empty in Hm.
  - destruct skip as [|skip'].
    + destruct covered; [|discriminate]. simpl in E. subst tail.
      cbn [splitLoop]. rewrite exec_literal.
      destruct (matchLiteral q (String c rest')) as [after|] eqn:M.
      * apply matchLiteral_spec in M as (mid & Hmid & Hl).
        exists mid. split; [|exact Hl].
        assert (Hc : consumed (String c rest') after = mid)
          by (rewrite Hmid; apply consumed_app).
        assert (Hlen : (String.length (String c rest') - String.length after)%nat
                       = String.length mid)
          by (rewrite Hmid, length_app; apply Nat.add_sub).
        rewrite Hc, Hlen.
        destruct (String.length mid) eqn:Lm.
        -- exfalso. apply Hq. destruct mid; [|discriminate].
           symmetry in Hl. now apply toLowerCase_empty in Hl.
        -- right. now left.
      * destruct Ho as (pre & mid & post & E & Hm).
        destruct pre as [|d pre].
        -- exfalso. simpl in E.
           assert (X : matchLiteral q (String c rest') = Some post)
             by (apply matchLiteral_spec; now exists mid).
           rewrite X in M. discriminate.
        -- simpl in E. injection E as <- E.
           apply (IH (pending ++ String c "") 0%nat "" rest' eq_refl eq_refl).
           now exists pre, mid, post.
    + destruct covered as [|d covered']; [discriminate|].
      simpl in E, L. injection E as <- E. injection L as L.
      cbn [splitLoop]. now apply (IH pending skip' covered' tail).
Qed.

Lemma split_finds (q text : string) :
  q <> "" -> occursAnyCase q text ->
  exists mid,
    In (Some mid) (split text (RSeq REmpty (RGroup 1 (literal REmpty q))) 1)
    /\ toLowerCase mid = toLowerCase q.
Proof.
  intros Hq Ho. destruct text as [|c text'].
  - exfalso. apply Hq. destruct Ho as (pre & mid & post & E & Hm).
    destruct pre; [|discriminate]. destruct mid; [|discriminate].
    symmetry in Hm. now apply toLowerCase_empty in Hm.
  - apply (splitLoop_finds q Hq (String c text') "" 0%nat "" (String c text'));
      trivial.
Qed.

Lemma mapParts_marks (query mid : string) (parts : list (option string))
    (nodes : list node) :
  mapParts query parts = Some nodes ->
  In (Some mid) parts -> toLowerCase mid = toLowerCase query ->
  In (Mark mid) nodes.
Proof.
  revert nodes. induction parts as [|p parts IH]; intros nodes E Hin Hl.
  - contradiction.
  - simpl in E. destruct p as [part|]; [|discriminate].
    destruct (mapParts query parts) as [nodes'|]; [|discriminate].
    injection E as <-. destruct Hin as [Hin|Hin].
    + injection Hin as ->. rewrite Hl, String.eqb_refl. now left.
    + right. now apply IH.
Qed.

Lemma mapParts_marked (query m : string) (pieces : list string)
    (nodes : list node) :
  mapParts query (map Some pieces) = Some nodes ->
  In (Mark m) nodes ->
  In m pieces /\ toLowerCase m = toLowerCase query.
Proof.
  revert nodes. induction pieces as [|p pieces IH]; intros nodes E Hin.
  - injection E as <-. contradiction.
  - simpl in E. destruct (mapParts query (map Some pieces)) as [nodes'|]; [|discriminate].
    injection E as <-. destruct Hin as [Hin|Hin].
    + destruct (String.eqb_spec (toLowerCase p) (toLowerCase query)) as [El|];
        [|discriminate].
      injection Hin as ->. split; [now left | exact El].
    + destruct (IH nodes' eq_refl Hin) as [H1 H2]. split; [now right | exact H2].
Qed.

Lemma piece_occurs (m : string) (pieces : list string) :
  In m pieces ->
  exists pre post, fold_right append "" pieces = pre ++ m ++ post.
Proof.
  induction pieces as [|p pieces IH]; [contradiction|].
  intros [->|Hin]; simpl.
  - now exists "", (fold_right append "" pieces).
  - destruct (IH Hin) as (pre & post & ->).
    exists (p ++ pre), post. now rewrite app_assoc.
Qed.

Lemma highlighted_marks (nodes : list node) (m : string) :
  In m (highlighted (Span nodes)) <-> In (Mark m) nodes.
Proof.
  simpl. rewrite in_flat_map. split.
  - intros (x & Hx & Hm). destruct x as [s|s]; [contradiction|].
    destruct Hm as [->|[]]. exact Hx.
  - intros H. exists (Mark m). split; [exact H | now left].
Qed.

(** X6: for ASCII text and a non-empty ASCII query without syntax
    characters, the rendering highlights something exactly when the query
    occurs in the text in some casing (the test the article filter applies),
    and every highlighted piece is the query up to casing.  On ASCII the
    folding of the pattern's [i] flag and [toLowerCase] are the ones
    modelled here, and they agree. *)
Theorem highlight_iff_occurs (text query : string) :
  isAscii text = true -> isAscii query = true ->
  query <> "" -> isLiteral query = true ->
  exists nodes,
    renderHighlightedText text query = Returns (Span nodes) /\
    (highlighted (Span nodes) <> [] <-> occursAnyCase query text) /\
    (forall m, In m (highlighted (Span nodes)) ->
               toLowerCase m = toLowerCase query).
Proof.
  intros _ _ Hq Hl. unfold renderHighlightedText, truthy.
  pose proof Hq as Hq'. apply String.eqb_neq in Hq'. rewrite Hq'. cbn [negb].
  rewrite (RegExp_literal _ Hl).
  destruct (split_text _ text
              (exec_wrapped _ (literal_noGroups query REmpty eq_refl)))
    as (pieces & Hs & Hp).
  destruct (mapParts_defined query pieces) as (nodes & Hn & Hm).
  rewrite Hs, Hn. exists nodes. split; [reflexivity|]. split; [split|].
  - intros Hne.
    destruct (highlighted (Span nodes)) as [|m ms] eqn:Eh; [now contradiction Hne|].
    assert (Hin : In (Mark m) nodes)
      by (apply highlighted_marks; rewrite Eh; now left).
    destruct (mapParts_marked query m pieces nodes Hn Hin) as [Hpiece Hlow].
    destruct (piece_occurs m pieces Hpiece) as (pre & post & E).
    exists pre, m, post. split; [now rewrite <- Hp | exact Hlow].
  - intros Ho. destruct (split_finds query text Hq Ho) as (mid & Hin & Hlow).
    rewrite Hs in Hin.
    assert (Hmark : In (Mark mid) nodes)
      by (apply (mapParts_marks query mid (map Some pieces) nodes); trivial).
    apply highlighted_marks in Hmark. intros E. rewrite E in Hmark. contradiction.
  - intros m Hin. apply highlighted_marks in Hin.
    now destruct (mapParts_marked query m pieces nodes Hn Hin).
Qed.

Lemma highlight_iff_occurs_witness :
  exists nodes,
    renderHighlightedText "Election day" "elect" = Returns (Span nodes) /\
    (highlighted (Span nodes) <> [] <-> occursAnyCase "elect" "Election day") /\
    (forall m, In m (highlighted (Span nodes)) ->
               toLowerCase m = toLowerCase "elect").
Proof.
  apply (highlight_iff_occurs "Election day" "elect").
  - reflexivity.
  - reflexivity.
  - discriminate.
  - reflexivity.
Defined.

(** **** Unbalanced parentheses *)

Lemma literal_app_nonempty (q s : string) : s <> "" -> q ++ s <> "".
Proof. destruct q; simpl; [trivial | discriminate]. Qed.

(** X7: a query that ends in a parenthesis, after any run of characters
    without syntax characters, is no pattern once wrapped in the group: the
    rendering throws for every text, be the parenthesis an opening or a
    closing one. *)
Theorem unbalanced_query_throws (text q : string) :
  isLiteral q = true ->
  renderHighlightedText text (q ++ "(") = Throws RegExpSyntaxError /\
  renderHighlightedText text (q ++ ")") = Throws RegExpSyntaxError.
Proof.
  intros Hl. unfold renderHighlightedText, truthy. split.
  - assert (E : String.eqb (q ++ "(") "" = false)
      by (apply String.eqb_neq, literal_app_nonempty; discriminate).
    rewrite E. cbn [negb]. unfold RegExp.
    rewrite app_assoc.
    change ("(" ++ q ++ "(" ++ ")") with (String "(" (q ++ "()")).
    cbn [allChars]. rewrite (isLiteral_modelled q "()" Hl).
    cbn. now rewrite parse_literal.
  - assert (E : String.eqb (q ++ ")") "" = false)
      by (apply String.eqb_neq, literal_app_nonempty; discriminate).
    rewrite E. cbn [negb]. unfold RegExp.
    rewrite app_assoc.
    change ("(" ++ q ++ ")" ++ ")") with (String "(" (q ++ "))")).
    cbn [allChars]. rewrite (isLiteral_modelled q "))" Hl).
    cbn. now rewrite parse_literal.
Qed.

Lemma unbalanced_query_throws_witness :
  renderHighlightedText "Budget (2024)" ("budget " ++ "(") = Throws RegExpSyntaxError /\
  renderHighlightedText "Budget (2024)" ("budget " ++ ")") = Throws RegExpSyntaxError.
Proof. apply (unbalanced_query_throws "Budget (2024)" "budget "). reflexivity. Defined.

End HighlightExtra.

(* ================================================================== *)
(** ** More on the two handlers *)
(* ================================================================== *)

Module ApiExtra.
Import JS JSFacts Api ApiFacts ApiMore.

(** **** transcribe-file.ts *)

(** X8: the file handler turns a request away before consulting anything:
    any method other than POST gets 405 with the header [Allow: POST]; a
    POST whose body holds no [fileData] or no [mimeType], or an empty one,
    gets 400; and a POST without a body gets no response at all, for the
    destructuring of [req.body] stands before the [try] block and throws a
    TypeError.  In all three cases neither the environment nor the AI
    service is touched. *)
Theorem File_rejects_early (w : World) (req : File.Request) :
  (File.method req <> "POST" ->
   File.handler w req =
     ([], Normal (mkResponse 405 [("Allow", "POST")] (ErrorBody "Method Not Allowed"))))
  /\
  (File.method req = "POST" ->
   forall fileData mimeType,
     File.body req = File.mkBody fileData mimeType ->
     falsy fileData || falsy mimeType = true ->
     File.handler w req =
       ([], Normal (respond 400 (ErrorBody "遺失檔案資料或 MIME 類型。"))))
  /\
  (File.method req = "POST" -> File.body req = File.noBody ->
   File.handler w req = ([], Throw File.destructuringError)).
Proof.
  unfold File.handler. split; [|split].
  - intros H. apply String.eqb_neq in H. now rewrite H.
  - intros -> fd mt -> H. rewrite String.eqb_refl. cbn [negb].
    destruct fd as [data|]; destruct mt as [mime|]; trivial.
    unfold falsy in H. now rewrite H.
  - intros -> ->. reflexivity.
Qed.

Lemma File_rejects_early_witness :
  File.handler (sampleWorld (Some "k") "600" (inr "text"))
    (File.mkRequest "PUT" (File.mkBody (Some "QUJD") (Some "audio/mpeg"))) =
    ([], Normal (mkResponse 405 [("Allow", "POST")] (ErrorBody "Method Not Allowed")))
  /\
  File.handler (sampleWorld (Some "k") "600" (inr "text"))
    (File.mkRequest "POST" (File.mkBody (Some "QUJD") (Some ""))) =
    ([], Normal (respond 400 (ErrorBody "遺失檔案資料或 MIME 類型。")))
  /\
  File.handler (sampleWorld (Some "k") "600" (inr "text"))
    (File.mkRequest "POST" File.noBody) = ([], Throw File.destructuringError).
Proof.
  split; [|split].
  - apply (proj1 (File_rejects_early (sampleWorld (Some "k") "600" (inr "text"))
                    (File.mkRequest "PUT" (File.mkBody (Some "QUJD") (Some "audio/mpeg"))))).
    discriminate.
  - apply (proj1 (proj2 (File_rejects_early (sampleWorld (Some "k") "600" (inr "text"))
                    (File.mkRequest "POST" (File.mkBody (Some "QUJD") (Some "")))))
             eq_refl (Some "QUJD") (Some "")); reflexivity.
  - apply (proj2 (proj2 (File_rejects_early (sampleWorld (Some "k") "600" (inr "text"))
                    (File.mkRequest "POST" File.noBody)))); reflexivity.
Defined.

(** X9: on the file endpoint, a well-formed POST on a server whose API_KEY
    is unset or empty is answered 500 with the credential message, and the
    AI service is not called: the run only reads the key. *)
Theorem File_missing_key (w : World) (req : File.Request) (data mime : string) :
  File.method req = "POST" ->
  File.fileData (File.body req) = Some data -> truthy data = true ->
  File.mimeType (File.body req) = Some mime -> truthy mime = true ->
  falsy (API_KEY w) = true ->
  File.handler w req =
    ([ReadApiKey], Normal (respond 500 (ErrorBody credentialMessage))).
Proof.
  intros Hm Hd Td Hmi Tm Hk. unfold File.handler.
  destruct (File.body req) as [|fd mt]; [discriminate Hd|].
  cbn [File.fileData File.mimeType] in Hd, Hmi.
  rewrite Hm, Hd, Hmi, Td, Tm, String.eqb_refl. cbn [negb orb].
  unfold bind, observe, tryCatch, throw, ret.
  unfold falsy in Hk. destruct (API_KEY w) as [k|].
  - now rewrite Hk.
  - reflexivity.
Qed.

Lemma File_missing_key_witness :
  File.handler (sampleWorld (Some "") "600" (inr "text")) sampleFileRequest =
    ([ReadApiKey], Normal (respond 500 (ErrorBody credentialMessage))).
Proof.
  apply (File_missing_key (sampleWorld (Some "") "600" (inr "text"))
           sampleFileRequest "QVVESU8=" "audio/mpeg"); reflexivity.
Defined.






(** **** transcribe-youtube.ts *)

(** X12: the URL handler answers 400 for a body without a URL, for an
    empty URL and for a URL the library refuses, without asking the library
    for metadata; a missing or empty URL is not even passed to the
    library's validity check.  A POST without a body gets no response: the
    destructuring of [req.body] stands before the [try] block and throws a
    TypeError. *)
Theorem Youtube_invalid_url_rejected (w : World) (req : Youtube.Request) :
  Youtube.method req = "POST" ->
  (forall url, Youtube.body req = Youtube.mkBody url -> falsy url = true ->
   Youtube.handler w req =
     ([], Normal (respond 400 (ErrorBody "無效或遺失 YouTube 連結"))))
  /\
  (forall u, Youtube.body req = Youtube.mkBody (Some u) -> truthy u = true ->
             validateURL w u = false ->
             Youtube.handler w req =
               ([ValidateURL u],
                Normal (respond 400 (ErrorBody "無效或遺失 YouTube 連結"))))
  /\
  (Youtube.body req = Youtube.noBody ->
   Youtube.handler w req = ([], Throw Youtube.destructuringError)).
Proof.
  intros Hm. unfold Youtube.handler. rewrite Hm, String.eqb_refl. cbn [negb].
  split; [|split].
  - intros url ->. unfold falsy. destruct url as [u|]; [|reflexivity].
    now intros ->.
  - intros u -> Tu Hv. rewrite Tu. cbn [negb].
    unfold bind, observe. now rewrite Hv.
  - now intros ->.
Qed.

Lemma Youtube_invalid_url_rejected_witness :
  Youtube.handler (sampleWorld (Some "k") "600" (inr "text"))
    (Youtube.mkRequest "POST" (Some "")) =
    ([], Normal (respond 400 (ErrorBody "無效或遺失 YouTube 連結")))
  /\
  Youtube.handler (sampleWorld (Some "k") "600" (inr "text"))
    (Youtube.mkRequest "POST" (Some "ftp://example.org/a")) =
    ([ValidateURL "ftp://example.org/a"],
     Normal (respond 400 (ErrorBody "無效或遺失 YouTube 連結")))
  /\
  Youtube.handler (sampleWorld (Some "k") "600" (inr "text"))
    (Youtube.request "POST" Youtube.noBody) =
    ([], Throw Youtube.destructuringError).
Proof.
  split; [|split].
  - apply (proj1 (Youtube_invalid_url_rejected
                    (sampleWorld (Some "k") "600" (inr "text"))
                    (Youtube.mkRequest "POST" (Some "")) eq_refl) (Some ""));
      reflexivity.
  - apply (proj1 (proj2 (Youtube_invalid_url_rejected
                    (sampleWorld (Some "k") "600" (inr "text"))
                    (Youtube.mkRequest "POST" (Some "ftp://example.org/a")) eq_refl))
             "ftp://example.org/a"); reflexivity.
  - apply (proj2 (proj2 (Youtube_invalid_url_rejected
                    (sampleWorld (Some "k") "600" (inr "text"))
                    (Youtube.request "POST" Youtube.noBody) eq_refl))).
    reflexivity.
Defined.

(** X13: the duration check lets through every video whose length does not
    read as a number over 600: a length of 600 or less (zero and negative
    numbers included) and a length that is no number at all both go on to
    the choice of a format. *)
Theorem Youtube_duration_not_over (w : World) (req : Youtube.Request)
    (u : string) (info : VideoInfo) :
  Youtube.method req = "POST" -> Youtube.url req = Some u ->
  truthy u = true -> validateURL w u = true -> getInfo w u = inr info ->
  parseInt (lengthSeconds info) = None \/
  (exists d, parseInt (lengthSeconds info) = Some d /\ d <= 600) ->
  exists rest r,
    Youtube.handler w req =
      (ValidateURL u :: GetInfo u :: ChooseFormat :: rest, Normal r).
Proof.
  intros Hm Hu Tu Hv Hi Hd.
  rewrite (Youtube_prefix w req u Hm Hu Tu Hv).
  destruct (Youtube_attempt_within w u info Hi) as (rest & c & -> & _).
  - destruct Hd as [-> | (d & -> & Hle)]; [reflexivity|].
    apply Z.ltb_ge. unfold Youtube.MAX_VIDEO_DURATION_SECONDS. lia.
  - exists rest. eexists. reflexivity.
Qed.

Lemma Youtube_duration_not_over_witness :
  exists rest r,
    Youtube.handler (sampleWorld (Some "k") "PT10M" (inr "text")) sampleUrlRequest =
      (ValidateURL sampleUrl :: GetInfo sampleUrl :: ChooseFormat :: rest, Normal r).
Proof.
  apply (Youtube_duration_not_over (sampleWorld (Some "k") "PT10M" (inr "text"))
           sampleUrlRequest sampleUrl (mkInfo "PT10M" [sampleFormat])
           eq_refl eq_refl eq_refl eq_refl eq_refl).
  left. reflexivity.
Defined.





Lemma startOf_intro (t rest full : list Event) :
  full = (t ++ rest)%list -> startOf t full.
Proof. intros H. now exists rest. Qed.


(** **** [streamToBuffer] *)

Lemma settle_data (chunks : list string) (events : list StreamEvent) :
  forall acc,
    settle acc (map OnData chunks ++ events)%list = settle (acc ++ chunks)%list events.
Proof.
  induction chunks as [|c chunks IH]; intros acc; simpl.
  - now rewrite List.app_nil_r.
  - rewrite IH. now rewrite <- List.app_assoc.
Qed.

(** X17: the promise of [streamToBuffer] resolves, at the stream's 'end',
    with the chunks received so far concatenated in their order of arrival;
    it rejects at an 'error' with [Stream error: ] before the message,
    dropping the chunks received; whatever the stream emits afterwards
    changes nothing; and a stream that only delivers data leaves it
    pending. *)
Theorem streamToBuffer_settles (chunks : list string)
    (message : string) (later : list StreamEvent) :
  streamToBuffer (map OnData chunks ++ OnEnd :: later)%list
    = Some (Resolved (String.concat "" chunks)) /\
  streamToBuffer (map OnData chunks ++ OnError message :: later)%list
    = Some (Rejected (ErrorObj ("Stream error: " ++ message))) /\
  streamToBuffer (map OnData chunks) = None.
Proof.
  unfold streamToBuffer. repeat split.
  - now rewrite settle_data.
  - now rewrite settle_data.
  - rewrite <- (List.app_nil_r (map OnData chunks)). now rewrite settle_data.
Qed.

End ApiExtra.

(* ================================================================== *)
(** ** More on the component *)
(* ================================================================== *)

Module TranscriberExtra.
Import JS JSFacts Transcriber.

(** **** The version that posts to the backend *)

Lemma shown_nonempty (m : string) : ProxyMore.shown m <> "".
Proof. unfold ProxyMore.shown. destruct (includes _ _); discriminate. Qed.

(** X18: whatever the backend and the file reader do, a submission in the
    version that posts to the backend makes at most one request, to the
    endpoint of the current input mode, carrying the URL as typed or the
    data the reader made of the picked file together with the file's type;
    it leaves the mode, the URL, the file and its name untouched.  With
    nothing to submit (a URL of white space only, or no file) it makes no
    request and changes nothing but the error, so a transcript shown before
    stays; otherwise it ends with the loading and copied flags down and
    never with both an error and a transcript. *)
Theorem Proxy_submission (w : Proxy.World) (s : Proxy.State) :
  let t := fst (Proxy.handleTranscribe w s) in
  let s' := snd (Proxy.handleTranscribe w s) in
  (List.length t <= 1)%nat /\
  (forall ev, In ev t -> ProxyMore.fitsMode w s ev) /\
  Proxy.inputType s' = Proxy.inputType s /\
  Proxy.urlValue s' = Proxy.urlValue s /\
  Proxy.file s' = Proxy.file s /\
  Proxy.fileName s' = Proxy.fileName s /\
  (ProxyMore.nothingToSubmit s = true ->
   t = [] /\ s' = Proxy.setError "請提供影片連結或上傳檔案。" s) /\
  (ProxyMore.nothingToSubmit s = false ->
   Proxy.isLoading s' = false /\ Proxy.isCopied s' = false /\
   (Proxy.error s' = "" \/ Proxy.transcript s' = "")).
Proof.
  destruct s as [it uv fl fn ld tr er cp].
  unfold Proxy.handleTranscribe, ProxyMore.nothingToSubmit, ProxyMore.fitsMode.
  cbn [Proxy.inputType Proxy.urlValue Proxy.file].
  destruct (_ || _) eqn:G.
  { cbn. repeat split; trivial; try lia; try contradiction; discriminate. }
  unfold Proxy.attempt, Proxy.request. cbn.
  destruct it; cbn in G |- *.
  - destruct (Proxy.fetch w _ _) as [e|resp].
    + destruct (includes (messageOf e) "Failed to fetch"); cbn;
        repeat split; trivial; try lia; try discriminate; auto;
        intros ev [<-|[]]; reflexivity.
    + destruct (Proxy.responseJson resp) as [e|data];
        [| destruct (negb (Proxy.ok resp))];
        try destruct (includes _ "Failed to fetch"); cbn;
        repeat split; trivial; try lia; try discriminate; auto;
        intros ev [<-|[]]; reflexivity.
  - destruct fl as [f|]; [|discriminate].
    destruct (4718592 <? size f).
    { cbn. repeat split; trivial; try lia; try contradiction; try discriminate; auto. }
    destruct (Proxy.fileToBase64 w f) as [e|fileData] eqn:R.
    + destruct (includes (messageOf e) "Failed to fetch"); cbn;
        repeat split; trivial; try lia; try contradiction; try discriminate; auto.
    + destruct (Proxy.fetch w _ _) as [e|resp];
        [| destruct (Proxy.responseJson resp) as [e|data];
           [| destruct (negb (Proxy.ok resp))] ];
        try destruct (includes _ "Failed to fetch"); cbn;
        repeat split; trivial; try lia; try discriminate; auto;
        intros ev [<-|[]]; exists f, fileData; repeat split; trivial.
Qed.

(** X19: in URL mode, with a URL that is not blank, the submission posts
    the URL as typed to [/api/transcribe-youtube] and ends in one of three
    ways: the transcript of an OK response; for a response that is not OK,
    the response's [error] (or a stock sentence when it has none) after
    [轉換失敗：]; for a failed fetch, its message after the same words --
    except that any message containing [Failed to fetch] is replaced by the
    sentence about the connection. *)
Theorem Proxy_url_submission (w : Proxy.World) (s : Proxy.State) :
  Proxy.inputType s = InputUrl -> truthy (trim (Proxy.urlValue s)) = true ->
  fst (Proxy.handleTranscribe w s) =
    [Proxy.Fetch "/api/transcribe-youtube" (Proxy.UrlPayload (Proxy.urlValue s))]
  /\
  let s' := snd (Proxy.handleTranscribe w s) in
  match Proxy.fetch w "/api/transcribe-youtube" (Proxy.UrlPayload (Proxy.urlValue s)) with
  | inl e =>
      Proxy.error s' = ProxyMore.shown (messageOf e) /\ Proxy.transcript s' = ""
  | inr resp =>
      match Proxy.responseJson resp with
      | inl e =>
          Proxy.error s' = ProxyMore.shown (messageOf e) /\ Proxy.transcript s' = ""
      | inr data =>
          if Proxy.ok resp
          then Proxy.transcript s' = Proxy.data_transcript data /\ Proxy.error s' = ""
          else
            Proxy.transcript s' = "" /\
            Proxy.error s' =
              ProxyMore.shown
                (match Proxy.data_error data with
                 | Some m => if truthy m then m else "從伺服器取得逐字稿時發生錯誤。"
                 | None => "從伺服器取得逐字稿時發生錯誤。"
                 end)
      end
  end.
Proof.
  destruct s as [it uv fl fn ld tr er cp]. cbn. intros -> Hu.
  unfold Proxy.handleTranscribe, Proxy.attempt, Proxy.request, ProxyMore.shown.
  cbn. rewrite Hu. cbn.
  destruct (Proxy.fetch w _ _) as [e|resp].
  - destruct (includes (messageOf e) "Failed to fetch"); cbn; auto.
  - destruct (Proxy.responseJson resp) as [e|data].
    + destruct (includes (messageOf e) "Failed to fetch"); cbn; auto.
    + destruct (Proxy.ok resp); cbn; [auto|].
      destruct (includes _ "Failed to fetch"); cbn; auto.
Qed.

Lemma Proxy_url_submission_witness :
  fst (Proxy.handleTranscribe sampleProxyWorld
         (Proxy.mkState InputUrl " https://youtu.be/x " None "" false "" "" false)) =
    [Proxy.Fetch "/api/transcribe-youtube" (Proxy.UrlPayload " https://youtu.be/x ")]
  /\ Proxy.transcript
       (snd (Proxy.handleTranscribe sampleProxyWorld
               (Proxy.mkState InputUrl " https://youtu.be/x " None "" false "" "" false)))
     = "text".
Proof.
  pose proof (Proxy_url_submission sampleProxyWorld
                (Proxy.mkState InputUrl " https://youtu.be/x " None "" false "" "" false)
                eq_refl eq_refl) as [H1 H2].
  split; [exact H1 | exact (proj1 H2)].
Defined.

(** X20: right after a change of input mode there is nothing to submit: in
    both versions of the component, a submission that follows
    [handleTypeChange] makes no request and shows the request to provide a
    link or a file. *)
Theorem submit_after_type_change (t : InputType) :
  (forall (w : Proxy.World) (s : Proxy.State),
     Proxy.handleTranscribe w (Proxy.handleTypeChange t s) =
     ([], Proxy.setError "請提供影片連結或上傳檔案。" (Proxy.handleTypeChange t s)))
  /\
  (forall (w : Direct.World) (s : Direct.State),
     Direct.handleTranscribe w (Direct.handleTypeChange t s) =
     ([], Direct.setError "請提供影片連結或上傳檔案。" (Direct.handleTypeChange t s))).
Proof. split; intros w s; destruct t; reflexivity. Qed.

(** X21: picking a file and submitting, in file mode of the version that
    posts to the backend: a file within the ceiling that the reader can read
    leads to exactly one request, to [/api/transcribe-file], carrying the
    reader's data and the file's own type; a file the reader cannot read
    leads to no request and to the reader's error on display. *)
Theorem Proxy_pick_and_submit (w : Proxy.World) (s : Proxy.State) (f : File) :
  Proxy.inputType s = InputFile -> size f <= 4718592 ->
  match Proxy.fileToBase64 w f with
  | inr fileData =>
      fst (Proxy.handleTranscribe w (ProxyMore.handleFileChange (Some f) s)) =
        [Proxy.Fetch "/api/transcribe-file" (Proxy.FilePayload fileData (type f))]
  | inl e =>
      Proxy.handleTranscribe w (ProxyMore.handleFileChange (Some f) s) =
        ([], Proxy.mkState InputFile (Proxy.urlValue s) (Some f) (name f) false ""
               (ProxyMore.shown (messageOf e)) false)
  end.
Proof.
  destruct s as [it uv fl fn ld tr er cp]. cbn. intros -> Hsize.
  unfold Proxy.handleTranscribe, Proxy.attempt, Proxy.request, ProxyMore.shown. cbn.
  assert (E : (4718592 <? size f) = false) by (apply Z.ltb_ge; exact Hsize).
  rewrite E.
  destruct (Proxy.fileToBase64 w f) as [e|fileData].
  - now destruct (includes (messageOf e) "Failed to fetch").
  - destruct (Proxy.fetch w _ _) as [e|resp]; [reflexivity|].
    destruct (Proxy.responseJson resp) as [e|data]; [reflexivity|].
    now destruct (negb (Proxy.ok resp)).
Qed.

Lemma Proxy_pick_and_submit_witness :
  fst (Proxy.handleTranscribe sampleProxyWorld
         (ProxyMore.handleFileChange (Some (mkFile "a.mp3" 1000 "audio/mpeg"))
            (Proxy.mkState InputFile "" None "" false "old" "" true))) =
    [Proxy.Fetch "/api/transcribe-file" (Proxy.FilePayload "QUJD" "audio/mpeg")].
Proof.
  apply (Proxy_pick_and_submit sampleProxyWorld
           (Proxy.mkState InputFile "" None "" false "old" "" true)
           (mkFile "a.mp3" 1000 "audio/mpeg") eq_refl).
  cbn. lia.
Defined.

(** **** The version that calls the AI service from the browser *)

(** X22: in the version that calls the AI service from the browser, URL
    mode never reaches the service: a submission with a URL that is not
    blank makes no call and shows that links are not supported, with the
    loading flag down and no transcript. *)
Theorem Direct_url_unavailable (w : Direct.World) (s : Direct.State) :
  Direct.inputType s = InputUrl -> truthy (trim (Direct.urlValue s)) = true ->
  Direct.handleTranscribe w s =
    ([], Direct.mkState InputUrl (Direct.urlValue s) (Direct.file s)
           (Direct.fileName s) false "" DirectMore.urlUnavailable).
Proof.
  destruct s as [it uv fl fn ld tr er]. cbn. intros -> Hu.
  unfold Direct.handleTranscribe. cbn. now rewrite Hu.
Qed.

Lemma Direct_url_unavailable_witness :
  Direct.handleTranscribe sampleDirectWorld
    (Direct.mkState InputUrl "https://youtu.be/x" None "" false "old" "") =
    ([], Direct.mkState InputUrl "https://youtu.be/x" None "" false ""
           DirectMore.urlUnavailable).
Proof.
  apply (Direct_url_unavailable sampleDirectWorld
           (Direct.mkState InputUrl "https://youtu.be/x" None "" false "old" ""));
    reflexivity.
Defined.

(** X23: in file mode of that version, with a file picked, a submission
    calls the service at most once and ends with the loading flag down.
    When the constructor, the reader and the AI call all succeed it shows
    the service's text and no error.  At the first of them that fails it
    shows no transcript and one of two fixed sentences, never the failure's
    own message: the sentence about the key when that message contains
    [api key] in some casing of its letters, the general sentence when a
    message of ASCII characters does not. *)
Theorem Direct_file_submission (w : Direct.World) (s : Direct.State) (f : File) :
  Direct.inputType s = InputFile -> Direct.file s = Some f ->
  let t := fst (Direct.handleTranscribe w s) in
  let s' := snd (Direct.handleTranscribe w s) in
  (List.length t <= 1)%nat /\ Direct.isLoading s' = false /\
  match DirectMore.outcome w f with
  | inr text => Direct.transcript s' = text /\ Direct.error s' = ""
  | inl e =>
      Direct.transcript s' = "" /\
      (occursAnyCase "api key" (messageOf e) ->
       Direct.error s' = DirectMore.keyMessage) /\
      (isAscii (messageOf e) = true ->
       ~ occursAnyCase "api key" (messageOf e) ->
       Direct.error s' = DirectMore.failureMessage) /\
      (Direct.error s' = DirectMore.keyMessage \/
       Direct.error s' = DirectMore.failureMessage)
  end.
Proof.
  assert (Key : forall m, includes (toLowerCase m) "api key" = true ->
            (occursAnyCase "api key" m -> DirectMore.keyMessage = DirectMore.keyMessage) /\
            (isAscii m = true -> ~ occursAnyCase "api key" m ->
             DirectMore.keyMessage = DirectMore.failureMessage) /\
            (DirectMore.keyMessage = DirectMore.keyMessage \/
             DirectMore.keyMessage = DirectMore.failureMessage)).
  { intros m E. split; [reflexivity|]. split; [|now left]. intros _ N. exfalso.
    apply N. now apply occursAnyCase_includes. }
  assert (Gen : forall m, includes (toLowerCase m) "api key" = false ->
            (occursAnyCase "api key" m ->
             DirectMore.failureMessage = DirectMore.keyMessage) /\
            (isAscii m = true -> ~ occursAnyCase "api key" m ->
             DirectMore.failureMessage = DirectMore.failureMessage) /\
            (DirectMore.failureMessage = DirectMore.keyMessage \/
             DirectMore.failureMessage = DirectMore.failureMessage)).
  { intros m E. split; [|split; [reflexivity | now right]]. intros O. exfalso.
    apply occursAnyCase_includes in O.
    change (toLowerCase "api key") with "api key" in O. rewrite E in O. discriminate. }
  destruct s as [it uv fl fn ld tr er]. cbn [Direct.inputType Direct.file].
  intros -> ->.
  unfold Direct.handleTranscribe, Direct.attempt, DirectMore.outcome. cbn.
  destruct (Direct.newGoogleGenAI w (Direct.API_KEY w)) as [e|].
  { destruct (includes (toLowerCase (messageOf e)) "api key") eqn:E; cbn;
      (split; [lia | split; [reflexivity | split; [reflexivity|]]]);
      [now apply Key | now apply Gen]. }
  destruct (Direct.readAsDataURL w f) as [e|data].
  { destruct (includes (toLowerCase (messageOf e)) "api key") eqn:E; cbn;
      (split; [lia | split; [reflexivity | split; [reflexivity|]]]);
      [now apply Key | now apply Gen]. }
  destruct (Direct.generateContent w Api.model Direct.prompt data (type f))
    as [e|text].
  - destruct (includes (toLowerCase (messageOf e)) "api key") eqn:E; cbn;
      (split; [lia | split; [reflexivity | split; [reflexivity|]]]);
      [now apply Key | now apply Gen].
  - cbn. split; [lia | split; [reflexivity | split; reflexivity]].
Qed.

Lemma Direct_file_submission_witness :
  Direct.error
    (snd (Direct.handleTranscribe
            (Direct.mkWorld (Some "k") (fun _ => None) (fun _ => inr "QUJD")
               (fun _ _ _ _ => inl (Api.ErrorObj "API Key not valid.")))
            (Direct.mkState InputFile "" (Some bigFile) "talk.mp4" true "" "x")))
  = DirectMore.keyMessage.
Proof.
  refine (proj1 (proj2 (proj2 (proj2
            (Direct_file_submission
               (Direct.mkWorld (Some "k") (fun _ => None) (fun _ => inr "QUJD")
                  (fun _ _ _ _ => inl (Api.ErrorObj "API Key not valid.")))
               (Direct.mkState InputFile "" (Some bigFile) "talk.mp4" true "" "x")
               bigFile eq_refl eq_refl)))) _).
  apply occursAnyCase_includes. reflexivity.
Defined.

(** **** The data URL of the file reader *)

Lemma splitComma_piece (h : string) :
  DataUrl.noComma h = true ->
  forall cur rest,
    DataUrl.splitComma cur (h ++ String "," rest) =
    (cur ++ h) :: DataUrl.splitComma "" rest.
Proof.
  induction h as [|c h IH]; simpl; intros H cur rest.
  - now rewrite app_nil_r.
  - apply andb_true_iff in H as [Hc Hh]. apply negb_true_iff in Hc.
    rewrite Hc, (IH Hh). now rewrite app_assoc.
Qed.

Lemma splitComma_last (p : string) :
  DataUrl.noComma p = true ->
  forall cur, DataUrl.splitComma cur p = [cur ++ p].
Proof.
  induction p as [|c p IH]; simpl; intros H cur.
  - now rewrite app_nil_r.
  - apply andb_true_iff in H as [Hc Hp]. apply negb_true_iff in Hc.
    rewrite Hc, (IH Hp). now rewrite app_assoc.
Qed.

(** X28: both file helpers keep, of the reader's data URL, the piece
    between the first comma and the second: for a header and a payload
    without commas (base64 has none) that is the whole payload; anything
    after a further comma is dropped; and a result without a comma gives
    undefined. *)
Theorem dataUrl_payload (header payload : string) :
  DataUrl.noComma header = true -> DataUrl.noComma payload = true ->
  DataUrl.payloadOf (header ++ "," ++ payload) = Some payload /\
  (forall rest,
     DataUrl.payloadOf (header ++ "," ++ payload ++ "," ++ rest) = Some payload) /\
  DataUrl.payloadOf header = None.
Proof.
  intros Hh Hp. unfold DataUrl.payloadOf. repeat split.
  - change (header ++ "," ++ payload) with (header ++ String "," payload).
    now rewrite (splitComma_piece header Hh), (splitComma_last payload Hp).
  - intros rest.
    change (header ++ "," ++ payload ++ "," ++ rest)
      with (header ++ String "," (payload ++ String "," rest)).
    now rewrite (splitComma_piece header Hh), (splitComma_piece payload Hp).
  - now rewrite (splitComma_last header Hh).
Qed.

Lemma dataUrl_payload_witness :
  DataUrl.payloadOf ("data:audio/mpeg;base64" ++ "," ++ "SUQzBAAAAAAA") =
    Some "SUQzBAAAAAAA".
Proof.
  exact (proj1 (dataUrl_payload "data:audio/mpeg;base64" "SUQzBAAAAAAA"
                  eq_refl eq_refl)).
Defined.

End TranscriberExtra.

(* ================================================================== *)
(** ** From the submit button to the AI service and back *)
(* ================================================================== *)

Module EndToEndExtra.
Import JS JSFacts Api ApiFacts Transcriber EndToEnd.

Lemma fileRequest_reaches (w : World) (data mime apiKey : string) :
  truthy data = true -> truthy mime = true ->
  API_KEY w = Some apiKey -> truthy apiKey = true ->
  File.reachesService w (fileRequest (Proxy.FilePayload data mime)) data mime apiKey.
Proof. intros. repeat split; trivial. Qed.

(** The handler's answer to the component's upload, as [fetch] returns it. *)
Lemma backend_file (w : World) (data mime apiKey : string) :
  truthy data = true -> truthy mime = true ->
  API_KEY w = Some apiKey -> truthy apiKey = true ->
  backend w "/api/transcribe-file" (Proxy.FilePayload data mime) =
  match generateContent w apiKey model File.prompt data mime with
  | inl e =>
      inr (Proxy.mkHttp (isOk (status (File.onError e)))
             (inr (toData (json (File.onError e)))))
  | inr text => inr (Proxy.mkHttp true (inr (Proxy.mkData None text)))
  end.
Proof.
  intros Td Tm Hk Tk. unfold backend, respondTo. cbn [String.eqb Ascii.eqb Bool.eqb].
  rewrite (File_run w _ data mime apiKey (fileRequest_reaches w data mime apiKey Td Tm Hk Tk)).
  cbn [snd]. now destruct (generateContent w apiKey model File.prompt data mime).
Qed.

(** X24: with the handler behind [fetch], a file within the ceiling that
    the reader turns into data, with a type of its own, on a server that has
    a key: when the AI service returns a text, the submission makes one
    request and leaves that text as the transcript, with no error and the
    loading flag down. *)
Theorem upload_shows_transcript (reader : File -> thrown + string) (w : World)
    (s : Proxy.State) (f : File) (data apiKey text : string) :
  Proxy.inputType s = InputFile -> Proxy.file s = Some f ->
  size f <= 4718592 ->
  reader f = inr data -> truthy data = true -> truthy (type f) = true ->
  API_KEY w = Some apiKey -> truthy apiKey = true ->
  generateContent w apiKey model File.prompt data (type f) = inr text ->
  Proxy.handleTranscribe (served reader w) s =
    ([Proxy.Fetch "/api/transcribe-file" (Proxy.FilePayload data (type f))],
     Proxy.mkState InputFile (Proxy.urlValue s) (Some f) (Proxy.fileName s)
       false text "" false).
Proof.
  destruct s as [it uv fl fn ld tr er cp]. cbn [Proxy.inputType Proxy.file
    Proxy.urlValue Proxy.fileName].
  intros -> -> Hsize Hr Td Tm Hk Tk Hg.
  unfold Proxy.handleTranscribe, Proxy.attempt, Proxy.request, served.
  cbn [Proxy.inputType Proxy.file Proxy.urlValue Proxy.fetch Proxy.fileToBase64
       Proxy.setIsCopied Proxy.setError Proxy.setTranscript Proxy.setIsLoading
       Proxy.fileName Proxy.isLoading Proxy.transcript Proxy.error Proxy.isCopied
       isUrl isFile negb andb orb].
  assert (E : (Proxy.MAX_UPLOAD_BYTES <? size f) = false) by (apply Z.ltb_ge; exact Hsize).
  rewrite E, Hr, (backend_file w data (type f) apiKey Td Tm Hk Tk), Hg.
  reflexivity.
Qed.

Lemma upload_shows_transcript_witness :
  Proxy.handleTranscribe
    (served (fun _ => inr "QUJD") (sampleWorld (Some "k") "600" (inr "Hello.")))
    (Proxy.mkState InputFile "" (Some (mkFile "a.mp3" 1000 "audio/mpeg")) "a.mp3"
       false "" "" false) =
    ([Proxy.Fetch "/api/transcribe-file" (Proxy.FilePayload "QUJD" "audio/mpeg")],
     Proxy.mkState InputFile "" (Some (mkFile "a.mp3" 1000 "audio/mpeg")) "a.mp3"
       false "Hello." "" false).
Proof.
  apply (upload_shows_transcript (fun _ => inr "QUJD")
           (sampleWorld (Some "k") "600" (inr "Hello."))
           (Proxy.mkState InputFile "" (Some (mkFile "a.mp3" 1000 "audio/mpeg")) "a.mp3"
              false "" "" false)
           (mkFile "a.mp3" 1000 "audio/mpeg") "QUJD" "k" "Hello.");
    try reflexivity.
  cbn. lia.
Defined.

(** X25: in the same setting, when the AI call fails, whatever it throws,
    the component shows one of three fixed sentences after [轉換失敗：] -- the
    credential one, the too-large one or the general one -- and no
    transcript: the failure's own message, which the handler puts in
    [details], never reaches the display. *)
Theorem upload_failure_shows_fixed_text (reader : File -> thrown + string)
    (w : World) (s : Proxy.State) (f : File) (data apiKey : string) (e : thrown) :
  Proxy.inputType s = InputFile -> Proxy.file s = Some f ->
  size f <= 4718592 ->
  reader f = inr data -> truthy data = true -> truthy (type f) = true ->
  API_KEY w = Some apiKey -> truthy apiKey = true ->
  generateContent w apiKey model File.prompt data (type f) = inl e ->
  let s' := snd (Proxy.handleTranscribe (served reader w) s) in
  Proxy.transcript s' = "" /\ Proxy.isLoading s' = false /\
  (Proxy.error s' = "轉換失敗：伺服器 API 金鑰設定錯誤。" \/
   Proxy.error s' = "轉換失敗：檔案過大，無法處理。請上傳小於 4.5MB 的檔案。" \/
   Proxy.error s' = "轉換失敗：處理檔案時發生錯誤。").
Proof.
  destruct s as [it uv fl fn ld tr er cp]. cbn [Proxy.inputType Proxy.file].
  intros -> -> Hsize Hr Td Tm Hk Tk Hg.
  unfold Proxy.handleTranscribe, Proxy.attempt, Proxy.request, served.
  cbn [Proxy.inputType Proxy.file Proxy.urlValue Proxy.fetch Proxy.fileToBase64
       Proxy.setIsCopied Proxy.setError Proxy.setTranscript Proxy.setIsLoading
       Proxy.fileName Proxy.isLoading Proxy.transcript Proxy.error Proxy.isCopied
       isUrl isFile negb andb orb].
  assert (E : (Proxy.MAX_UPLOAD_BYTES <? size f) = false) by (apply Z.ltb_ge; exact Hsize).
  rewrite E, Hr, (backend_file w data (type f) apiKey Td Tm Hk Tk), Hg.
  unfold File.onError.
  destruct (_ || _); [cbn; auto|].
  destruct (_ || _); cbn; auto.
Qed.

Lemma upload_failure_shows_fixed_text_witness :
  Proxy.error
    (snd (Proxy.handleTranscribe
            (served (fun _ => inr "QUJD")
               (sampleWorld (Some "k") "600" (inl (ErrorObj "quota project p-123"))))
            (Proxy.mkState InputFile "" (Some (mkFile "a.mp3" 1000 "audio/mpeg"))
               "a.mp3" false "" "" false)))
  = "轉換失敗：處理檔案時發生錯誤。".
Proof.
  pose proof (upload_failure_shows_fixed_text (fun _ => inr "QUJD")
                (sampleWorld (Some "k") "600" (inl (ErrorObj "quota project p-123")))
                (Proxy.mkState InputFile "" (Some (mkFile "a.mp3" 1000 "audio/mpeg"))
                   "a.mp3" false "" "" false)
                (mkFile "a.mp3" 1000 "audio/mpeg") "QUJD" "k"
                (ErrorObj "quota project p-123")
                eq_refl eq_refl) as H.
  cbn [size] in H.
  assert (Hs : 1000 <= 4718592) by lia.
  specialize (H Hs eq_refl eq_refl eq_refl eq_refl eq_refl eq_refl).
  reflexivity.
Defined.

(** X26: a file whose type the browser leaves empty, or whose data comes
    out empty, passes the component's checks and is posted, and the handler
    turns it away with 400 before reading the key or calling the AI service;
    the component shows the handler's sentence about the missing data or
    type. *)
Theorem upload_without_type (reader : File -> thrown + string) (w : World)
    (s : Proxy.State) (f : File) (data : string) :
  Proxy.inputType s = InputFile -> Proxy.file s = Some f ->
  size f <= 4718592 -> reader f = inr data ->
  truthy data = false \/ truthy (type f) = false ->
  Proxy.handleTranscribe (served reader w) s =
    ([Proxy.Fetch "/api/transcribe-file" (Proxy.FilePayload data (type f))],
     Proxy.mkState InputFile (Proxy.urlValue s) (Some f) (Proxy.fileName s)
       false "" "轉換失敗：遺失檔案資料或 MIME 類型。" false)
  /\ fst (File.handler w (fileRequest (Proxy.FilePayload data (type f)))) = [].
Proof.
  destruct s as [it uv fl fn ld tr er cp]. cbn [Proxy.inputType Proxy.file
    Proxy.urlValue Proxy.fileName].
  intros -> -> Hsize Hr Hempty.
  assert (Hh : File.handler w (fileRequest (Proxy.FilePayload data (type f))) =
               ([], Normal (respond 400 (ErrorBody "遺失檔案資料或 MIME 類型。")))).
  { unfold File.handler, fileRequest. cbn.
    destruct Hempty as [-> | ->]; [reflexivity|].
    now rewrite orb_true_r. }
  split; [|now rewrite Hh].
  unfold Proxy.handleTranscribe, Proxy.attempt, Proxy.request, served.
  cbn [Proxy.inputType Proxy.file Proxy.urlValue Proxy.fetch Proxy.fileToBase64
       Proxy.setIsCopied Proxy.setError Proxy.setTranscript Proxy.setIsLoading
       Proxy.fileName Proxy.isLoading Proxy.transcript Proxy.error Proxy.isCopied
       isUrl isFile negb andb orb].
  assert (E : (Proxy.MAX_UPLOAD_BYTES <? size f) = false) by (apply Z.ltb_ge; exact Hsize).
  rewrite E, Hr. unfold backend, respondTo.
  cbn [String.eqb Ascii.eqb Bool.eqb]. rewrite Hh. reflexivity.
Qed.

Lemma upload_without_type_witness :
  Proxy.error
    (snd (Proxy.handleTranscribe
            (served (fun _ => inr "QUJD") (sampleWorld (Some "k") "600" (inr "text")))
            (Proxy.mkState InputFile "" (Some (mkFile "notes.xyz" 10 ""))
               "notes.xyz" false "" "" false)))
  = "轉換失敗：遺失檔案資料或 MIME 類型。".
Proof.
  pose proof (upload_without_type (fun _ => inr "QUJD")
                (sampleWorld (Some "k") "600" (inr "text"))
                (Proxy.mkState InputFile "" (Some (mkFile "notes.xyz" 10 ""))
                   "notes.xyz" false "" "" false)
                (mkFile "notes.xyz" 10 "") "QUJD" eq_refl eq_refl) as H.
  cbn [size] in H.
  assert (Hs : 10 <= 4718592) by lia.
  destruct (H Hs eq_refl (or_intror eq_refl)) as [H1 _].
  exact (f_equal (fun r => Proxy.error (snd r)) H1).
Defined.

Lemma trim_truthy (s : string) : truthy (trim s) = true -> truthy s = true.
Proof. destruct s; [discriminate | reflexivity]. Qed.

(** X27: with the handler behind [fetch], a link to a video that the
    library accepts and that lasts 601 seconds or more: the handler stops
    after the metadata call, with nothing downloaded, and the component
    shows the sentence about the ten-minute limit. *)
Theorem long_video_refused (reader : File -> thrown + string) (w : World)
    (s : Proxy.State) (info : VideoInfo) (d : Z) :
  Proxy.inputType s = InputUrl -> truthy (trim (Proxy.urlValue s)) = true ->
  validateURL w (Proxy.urlValue s) = true ->
  getInfo w (Proxy.urlValue s) = inr info ->
  parseInt (lengthSeconds info) = Some d -> 601 <= d ->
  Proxy.error (snd (Proxy.handleTranscribe (served reader w) s))
    = "轉換失敗：影片長度超過 10 分鐘限制。"
  /\ fst (Youtube.handler w (urlRequest (Proxy.UrlPayload (Proxy.urlValue s))))
     = [ValidateURL (Proxy.urlValue s); GetInfo (Proxy.urlValue s)].
Proof.
  destruct s as [it uv fl fn ld tr er cp]. cbn [Proxy.inputType Proxy.urlValue].
  intros -> Tu Hv Hi Hd Hle.
  assert (Hh : Youtube.handler w (urlRequest (Proxy.UrlPayload uv)) =
               ([ValidateURL uv; GetInfo uv], Normal Youtube.durationExceeded)).
  { rewrite (Youtube_prefix w (urlRequest (Proxy.UrlPayload uv)) uv eq_refl eq_refl
               (trim_truthy uv Tu) Hv).
    rewrite (Youtube_attempt_over w uv info Hi); [reflexivity|].
    rewrite Hd. apply Z.ltb_lt. unfold Youtube.MAX_VIDEO_DURATION_SECONDS. lia. }
  split; [|now rewrite Hh].
  unfold Proxy.handleTranscribe, Proxy.attempt, Proxy.request, served.
  cbn [Proxy.inputType Proxy.file Proxy.urlValue Proxy.fetch Proxy.fileToBase64
       Proxy.setIsCopied Proxy.setError Proxy.setTranscript Proxy.setIsLoading
       Proxy.fileName Proxy.isLoading Proxy.transcript Proxy.error Proxy.isCopied
       isUrl isFile negb andb orb].
  rewrite Tu. cbn [negb andb orb].
  unfold backend, respondTo. cbn [String.eqb Ascii.eqb Bool.eqb].
  rewrite Hh. reflexivity.
Qed.

Lemma long_video_refused_witness :
  Proxy.error
    (snd (Proxy.handleTranscribe
            (served (fun _ => inr "QUJD") (sampleWorld (Some "k") "3600" (inr "text")))
            (Proxy.mkState InputUrl sampleUrl None "" false "" "" false)))
  = "轉換失敗：影片長度超過 10 分鐘限制。".
Proof.
  refine (proj1 (long_video_refused (fun _ => inr "QUJD")
                   (sampleWorld (Some "k") "3600" (inr "text"))
                   (Proxy.mkState InputUrl sampleUrl None "" false "" "" false)
                   (mkInfo "3600" [sampleFormat]) 3600
                   eq_refl eq_refl eq_refl eq_refl eq_refl _)).
  lia.
Defined.

End EndToEndExtra.

